(** * A shallow embedding of the ya6502e core (my6502.c)

    The C core keeps its registers in globals and reaches memory only
    through the host callbacks [my6502_read] / [my6502_write].  Here the
    globals are a record [cpu], the host is a byte memory that also records
    every bus access in order, and the code runs in a small state monad
    whose failure outcome models [assert(0)] (abort of the program). *)

From Stdlib Require Import ZArith Bool List String Lia.
Import ListNotations.
Open Scope Z_scope.
Set Primitive Projections.

(** ** Registers, host memory and the bus log *)

(** [uint16_t my_pc; uint8_t my_ac, my_x, my_y, my_sr, my_sp;] *)
Record cpu := mk_cpu {
  my_pc : Z;
  my_ac : Z;
  my_x : Z;
  my_y : Z;
  my_sr : Z;
  my_sp : Z
}.

(** Implicit C conversions to [uint8_t] / [uint16_t]. *)
Definition u8 (v : Z) : Z := v mod 256.
Definition u16 (v : Z) : Z := v mod 65536.

Definition set_pc (v : Z) (c : cpu) : cpu :=
  mk_cpu v (my_ac c) (my_x c) (my_y c) (my_sr c) (my_sp c).
Definition set_ac (v : Z) (c : cpu) : cpu :=
  mk_cpu (my_pc c) v (my_x c) (my_y c) (my_sr c) (my_sp c).
Definition set_x (v : Z) (c : cpu) : cpu :=
  mk_cpu (my_pc c) (my_ac c) v (my_y c) (my_sr c) (my_sp c).
Definition set_y (v : Z) (c : cpu) : cpu :=
  mk_cpu (my_pc c) (my_ac c) (my_x c) v (my_sr c) (my_sp c).
Definition set_sr (v : Z) (c : cpu) : cpu :=
  mk_cpu (my_pc c) (my_ac c) (my_x c) (my_y c) v (my_sp c).
Definition set_sp (v : Z) (c : cpu) : cpu :=
  mk_cpu (my_pc c) (my_ac c) (my_x c) (my_y c) (my_sr c) v.

(** One host callback invocation, with its (masked) address and byte. *)
Inductive bus_event :=
| BusRead (addr value : Z)
| BusWrite (addr value : Z).

Record machine := mk_machine {
  regs : cpu;
  mem : Z -> Z;
  bus_log : list bus_event
}.

(** ** The execution monad

    [Abort func m]: [assert(0)] failed in function [func]; the program is
    aborted with the report [<func>: Assertion `0' failed.] and [m] is the
    state at that point (what a core dump would show). *)
Inductive result (A : Type) :=
| Ok (a : A) (m : machine)
| Abort (func : string) (m : machine).
Arguments Ok {A} a m.
Arguments Abort {A} func m.

Definition M (A : Type) := machine -> result A.

Definition ret {A} (a : A) : M A := fun m => Ok a m.
Definition bind {A B} (c : M A) (k : A -> M B) : M B :=
  fun m => match c m with
           | Ok a m' => k a m'
           | Abort f m' => Abort f m'
           end.

Notation "x <- c1 ;; c2" := (bind c1 (fun x => c2))
  (at level 61, c1 at next level, right associativity).
Notation "c1 ;; c2" := (bind c1 (fun _ => c2))
  (at level 61, right associativity).

Definition assert0 {A} (func : string) : M A := fun m => Abort func m.

Definition get_cpu : M cpu := fun m => Ok (regs m) m.
Definition modify (f : cpu -> cpu) : M unit :=
  fun m => Ok tt (mk_machine (f (regs m)) (mem m) (bus_log m)).

(** [uint8_t my6502_read(uint16_t address)]: a byte of host memory. *)
Definition my6502_read (address : Z) : M Z :=
  fun m => let a := u16 address in
           let v := u8 (mem m a) in
           Ok v (mk_machine (regs m) (mem m) (bus_log m ++ [BusRead a v])).

(** [void my6502_write(uint16_t address, uint8_t value)]. *)
Definition my6502_write (address value : Z) : M unit :=
  fun m => let a := u16 address in
           let v := u8 value in
           Ok tt (mk_machine (regs m)
                   (fun x => if x =? a then v else mem m x)
                   (bus_log m ++ [BusWrite a v])).

(** ** Constants *)

Definition SR_FLAG_NEGATIVE := 128.
Definition SR_FLAG_OVERFLOW := 64.
Definition SR_FLAG_UNUSED := 32.
Definition SR_FLAG_BREAK := 16.
Definition SR_FLAG_DECIMAL := 8.
Definition SR_FLAG_INTERRUPT := 4.
Definition SR_FLAG_ZERO := 2.
Definition SR_FLAG_CARRY := 1.

Definition STACK_OFFSET := 256.
Definition IRQ_OFFSET := 65534.

(** [SR_CLR], [SR_SET], [SR_IS_SET] *)
Definition SR_CLR (bit : Z) (c : cpu) : cpu :=
  set_sr (u8 (Z.land (my_sr c) (Z.lnot bit))) c.
Definition SR_SET (bit : Z) (c : cpu) : cpu :=
  set_sr (u8 (Z.lor (my_sr c) bit)) c.
Definition SR_IS_SET (bit : Z) (c : cpu) : bool :=
  negb (Z.land (my_sr c) bit =? 0).

(** ** Reset *)

Definition my6502_reset (pc : Z) : M unit :=
  modify (fun _ => mk_cpu (u16 pc) 0 0 0 SR_FLAG_UNUSED 253).

(** ** Flag helpers *)

Definition my_update_sr (value flags : Z) (c : cpu) : cpu :=
  let value := u8 value in
  let c1 :=
    if negb (Z.land flags SR_FLAG_NEGATIVE =? 0) then
      (if negb (Z.land value 0x80 =? 0) then SR_SET SR_FLAG_NEGATIVE c
       else SR_CLR SR_FLAG_NEGATIVE c)
    else c in
  if negb (Z.land flags SR_FLAG_ZERO =? 0) then
    (if value =? 0 then SR_SET SR_FLAG_ZERO c1 else SR_CLR SR_FLAG_ZERO c1)
  else c1.

Definition my_update_sr_with_carry (reg_value flags carry_value : Z) (c : cpu)
  : cpu :=
  let c1 := my_update_sr reg_value flags c in
  if negb (u8 carry_value =? 0) then SR_SET SR_FLAG_CARRY c1
  else SR_CLR SR_FLAG_CARRY c1.

Definition NZ := Z.lor SR_FLAG_NEGATIVE SR_FLAG_ZERO.

(** ** Stack *)

(** [my6502_write(STACK_OFFSET + my_sp--, value)] *)
Definition my_push (value : Z) : M unit :=
  c <- get_cpu ;;
  modify (set_sp (u8 (my_sp c - 1))) ;;
  my6502_write (STACK_OFFSET + my_sp c) (u8 value).

(** [return my6502_read(STACK_OFFSET + ++my_sp)] *)
Definition my_pop : M Z :=
  c <- get_cpu ;;
  let sp := u8 (my_sp c + 1) in
  modify (set_sp sp) ;;
  my6502_read (STACK_OFFSET + sp).

(** ** Addressing modes *)

Inductive my_addr :=
| IMMEDIATE | ABSOLUTE | ABSOLUTE_X | ABSOLUTE_Y | ACCUMULATOR | RELATIVE
| INDIRECT | INDIRECT_X | INDIRECT_Y | ZEROPAGE | ZEROPAGE_X | ZEROPAGE_Y.

(** The enumerators' integer values. *)
Definition my_addr_code (mode : my_addr) : Z :=
  match mode with
  | IMMEDIATE => 0 | ABSOLUTE => 1 | ABSOLUTE_X => 2 | ABSOLUTE_Y => 3
  | ACCUMULATOR => 4 | RELATIVE => 5 | INDIRECT => 6 | INDIRECT_X => 7
  | INDIRECT_Y => 8 | ZEROPAGE => 9 | ZEROPAGE_X => 10 | ZEROPAGE_Y => 11
  end.

(** [my6502_read(my_pc++)] *)
Definition fetch_pc : M Z :=
  c <- get_cpu ;;
  modify (set_pc (u16 (my_pc c + 1))) ;;
  my6502_read (my_pc c).

(** [my_read_addr_from_mem(&my_pc)]: the pointer is the global PC. *)
Definition my_read_addr_from_mem_pc : M Z :=
  lo <- fetch_pc ;;
  hi <- fetch_pc ;;
  ret (u16 (Z.lor lo (Z.shiftl hi 8))).

(** [my_read_addr_from_mem(&addr)] on a local [addr], whose final value the
    callers discard. *)
Definition my_read_addr_from_mem (reg : Z) : M Z :=
  lo <- my6502_read reg ;;
  hi <- my6502_read (u16 (reg + 1)) ;;
  ret (u16 (Z.lor lo (Z.shiftl hi 8))).

(** [(int8_t)addr] *)
Definition sext8 (b : Z) : Z := if b <? 128 then b else b - 256.

Definition my_read_addr (mode : my_addr) : M Z :=
  match mode with
  | ABSOLUTE => my_read_addr_from_mem_pc
  | ABSOLUTE_X =>
      a <- my_read_addr_from_mem_pc ;; c <- get_cpu ;; ret (u16 (a + my_x c))
  | ABSOLUTE_Y =>
      a <- my_read_addr_from_mem_pc ;; c <- get_cpu ;; ret (u16 (a + my_y c))
  | RELATIVE =>
      addr <- fetch_pc ;; c <- get_cpu ;; ret (u16 (my_pc c + sext8 addr))
  | INDIRECT =>
      addr <- my_read_addr_from_mem_pc ;; my_read_addr_from_mem addr
  | INDIRECT_X =>
      b <- fetch_pc ;; c <- get_cpu ;;
      my_read_addr_from_mem (Z.land (b + my_x c) 0xFF)
  | INDIRECT_Y =>
      addr <- fetch_pc ;; a <- my_read_addr_from_mem addr ;; c <- get_cpu ;;
      ret (u16 (a + my_y c))
  | ZEROPAGE => fetch_pc
  | ZEROPAGE_X =>
      (* Wrap around without penalty for crossing page boundaries. *)
      b <- fetch_pc ;; c <- get_cpu ;; ret (Z.land (b + my_x c) 0xFF)
  | ZEROPAGE_Y =>
      b <- fetch_pc ;; c <- get_cpu ;; ret (Z.land (b + my_y c) 0xFF)
  | IMMEDIATE | ACCUMULATOR => assert0 "my_read_addr"
  end.

(** The packed operand: value in byte 0, mode in byte 1, address in bytes
    2-3. *)
Definition pack_op (addr : Z) (mode : my_addr) (value : Z) : Z :=
  Z.lor (Z.lor (Z.shiftl addr 16) (Z.shiftl (my_addr_code mode) 8)) value.

Definition my_read_op (mode : my_addr) : M Z :=
  match mode with
  | ABSOLUTE | ABSOLUTE_X | ABSOLUTE_Y | INDIRECT_X | INDIRECT_Y
  | ZEROPAGE | ZEROPAGE_X | ZEROPAGE_Y =>
      addr <- my_read_addr mode ;;
      v <- my6502_read addr ;;
      ret (pack_op addr mode v)
  | IMMEDIATE =>
      c <- get_cpu ;;
      let addr := my_pc c in
      modify (set_pc (u16 (my_pc c + 1))) ;;
      v <- my6502_read addr ;;
      ret (pack_op addr mode v)
  | ACCUMULATOR =>
      c <- get_cpu ;; ret (Z.lor (Z.shiftl (my_addr_code mode) 8) (my_ac c))
  | RELATIVE | INDIRECT => assert0 "my_read_op"
  end.

Definition my_write_op (op value : Z) : M unit :=
  let mode := Z.land (Z.shiftr op 8) 0xFF in
  let addr := u16 (Z.shiftr op 16) in
  if negb (mode =? my_addr_code ACCUMULATOR) then my6502_write addr value
  else modify (set_ac (u8 value)).

(** ** Instruction primitives

    Primitives touching only registers are functions [cpu -> cpu]; those
    issuing bus accesses run in [M]. *)

Definition my_adc (value : Z) (c : cpu) : cpu :=
  let value := u8 value in
  let same_sign := Z.land (my_ac c) 0x80 =? Z.land value 0x80 in
  let result := u16 (my_ac c + value) in
  let result := if SR_IS_SET SR_FLAG_CARRY c then u16 (result + 1) else result in
  let c1 :=
    if same_sign && negb (Z.land result 0x80 =? Z.land value 0x80)
    then SR_SET SR_FLAG_OVERFLOW c else SR_CLR SR_FLAG_OVERFLOW c in
  let c2 := set_ac (u8 result) c1 in
  my_update_sr_with_carry (my_ac c2) NZ (if 0x100 <=? result then 1 else 0) c2.

Definition my_and (value : Z) (c : cpu) : cpu :=
  let c1 := set_ac (Z.land (my_ac c) (u8 value)) c in
  my_update_sr (my_ac c1) NZ c1.

Definition my_asl (op : Z) : M unit :=
  let value := u8 op in
  let msb := Z.land value 0x80 in
  let value := u8 (Z.shiftl value 1) in
  modify (my_update_sr_with_carry value NZ msb) ;;
  my_write_op op value.

Definition my_bcs (addr : Z) (c : cpu) : cpu :=
  if SR_IS_SET SR_FLAG_CARRY c then set_pc addr c else c.

Definition my_bit (value : Z) (c : cpu) : cpu :=
  let value := u8 value in
  let c1 := if negb (Z.land value SR_FLAG_NEGATIVE =? 0)
            then set_sr (Z.lor (my_sr c) SR_FLAG_NEGATIVE) c
            else set_sr (u8 (Z.land (my_sr c) (Z.lnot SR_FLAG_NEGATIVE))) c in
  let c2 := if negb (Z.land value SR_FLAG_OVERFLOW =? 0)
            then set_sr (Z.lor (my_sr c1) SR_FLAG_OVERFLOW) c1
            else set_sr (u8 (Z.land (my_sr c1) (Z.lnot SR_FLAG_OVERFLOW))) c1 in
  if negb (Z.land (my_ac c2) value =? 0)
  then set_sr (u8 (Z.land (my_sr c2) (Z.lnot SR_FLAG_ZERO))) c2
  else set_sr (Z.lor (my_sr c2) SR_FLAG_ZERO) c2.

Definition my_bne (addr : Z) (c : cpu) : cpu :=
  if negb (SR_IS_SET SR_FLAG_ZERO c) then set_pc addr c else c.
Definition my_bcc (addr : Z) (c : cpu) : cpu :=
  if negb (SR_IS_SET SR_FLAG_CARRY c) then set_pc addr c else c.
Definition my_beq (addr : Z) (c : cpu) : cpu :=
  if SR_IS_SET SR_FLAG_ZERO c then set_pc addr c else c.
Definition my_bmi (addr : Z) (c : cpu) : cpu :=
  if SR_IS_SET SR_FLAG_NEGATIVE c then set_pc addr c else c.
Definition my_bpl (addr : Z) (c : cpu) : cpu :=
  if negb (SR_IS_SET SR_FLAG_NEGATIVE c) then set_pc addr c else c.

Definition my_brk : M unit :=
  c <- get_cpu ;;
  let return_addr := u16 (my_pc c + 1) in
  my_push (Z.shiftr return_addr 8) ;;
  my_push return_addr ;;
  c <- get_cpu ;;
  my_push (Z.lor (my_sr c) SR_FLAG_BREAK) ;;
  lo <- my6502_read IRQ_OFFSET ;;
  modify (set_pc lo) ;;
  hi <- my6502_read (IRQ_OFFSET + 1) ;;
  modify (fun c => set_pc (u16 (Z.lor (my_pc c) (Z.shiftl hi 8))) c) ;;
  modify (fun c => set_sr (Z.lor (my_sr c) SR_FLAG_INTERRUPT) c).

Definition my_bvc (addr : Z) (c : cpu) : cpu :=
  if negb (SR_IS_SET SR_FLAG_OVERFLOW c) then set_pc addr c else c.
Definition my_bvs (addr : Z) (c : cpu) : cpu :=
  if SR_IS_SET SR_FLAG_OVERFLOW c then set_pc addr c else c.

Definition my_clc (c : cpu) : cpu :=
  set_sr (u8 (Z.land (my_sr c) (Z.lnot SR_FLAG_CARRY))) c.
Definition my_cld (c : cpu) : cpu :=
  set_sr (u8 (Z.land (my_sr c) (Z.lnot SR_FLAG_DECIMAL))) c.
Definition my_cli (c : cpu) : cpu :=
  set_sr (u8 (Z.land (my_sr c) (Z.lnot SR_FLAG_INTERRUPT))) c.
Definition my_clv (c : cpu) : cpu :=
  set_sr (u8 (Z.land (my_sr c) (Z.lnot SR_FLAG_OVERFLOW))) c.

Definition my_cmp (value : Z) (c : cpu) : cpu :=
  let value := u8 value in
  my_update_sr_with_carry (my_ac c - value) NZ
    (if value <=? my_ac c then 1 else 0) c.
Definition my_cpx (value : Z) (c : cpu) : cpu :=
  let value := u8 value in
  my_update_sr_with_carry (my_x c - value) NZ
    (if value <=? my_x c then 1 else 0) c.
Definition my_cpy (value : Z) (c : cpu) : cpu :=
  let value := u8 value in
  my_update_sr_with_carry (my_y c - value) NZ
    (if value <=? my_y c then 1 else 0) c.

Definition my_dec (addr : Z) : M unit :=
  value <- my6502_read addr ;;
  let value := u8 (value - 1) in
  modify (my_update_sr value NZ) ;;
  my6502_write addr value.

Definition my_dex (c : cpu) : cpu :=
  let c1 := set_x (u8 (my_x c - 1)) c in my_update_sr (my_x c1) NZ c1.
Definition my_dey (c : cpu) : cpu :=
  let c1 := set_y (u8 (my_y c - 1)) c in my_update_sr (my_y c1) NZ c1.

Definition my_eor (value : Z) (c : cpu) : cpu :=
  let c1 := set_ac (Z.lxor (my_ac c) (u8 value)) c in
  my_update_sr (my_ac c1) NZ c1.

Definition my_jmp (addr : Z) (c : cpu) : cpu := set_pc addr c.

(** Mimic the hardware behaviour that saves the 8-bit buffer. *)
Definition my_jsr (addr : Z) : M unit :=
  c <- get_cpu ;;
  let old_pc := u16 (my_pc c - 1) in
  my_push (Z.shiftr old_pc 8) ;;
  my_push old_pc ;;
  modify (set_pc addr).

Definition my_inc (addr : Z) : M unit :=
  value <- my6502_read addr ;;
  let value := u8 (value + 1) in
  modify (my_update_sr value NZ) ;;
  my6502_write addr value.

Definition my_inx (c : cpu) : cpu :=
  let c1 := set_x (u8 (my_x c + 1)) c in my_update_sr (my_x c1) NZ c1.
Definition my_iny (c : cpu) : cpu :=
  let c1 := set_y (u8 (my_y c + 1)) c in my_update_sr (my_y c1) NZ c1.

Definition my_lda (value : Z) (c : cpu) : cpu :=
  let c1 := set_ac (u8 value) c in my_update_sr (my_ac c1) NZ c1.
Definition my_ldx (value : Z) (c : cpu) : cpu :=
  let c1 := set_x (u8 value) c in my_update_sr (my_x c1) NZ c1.
Definition my_ldy (value : Z) (c : cpu) : cpu :=
  let c1 := set_y (u8 value) c in my_update_sr (my_y c1) NZ c1.

Definition my_lsr (op : Z) : M unit :=
  let value := u8 op in
  let lsb := Z.land value 0x01 in
  let value := Z.shiftr value 1 in
  modify (my_update_sr_with_carry value NZ lsb) ;;
  my_write_op op value.

Definition my_nop (c : cpu) : cpu := c.

Definition my_ora (value : Z) (c : cpu) : cpu :=
  let c1 := set_ac (Z.lor (my_ac c) (u8 value)) c in
  my_update_sr (my_ac c1) NZ c1.

Definition my_rol (op : Z) : M unit :=
  c <- get_cpu ;;
  let value := u8 op in
  let msb := Z.land value 0x80 in
  let value := u8 (Z.shiftl value 1 + Z.land (my_sr c) SR_FLAG_CARRY) in
  modify (my_update_sr_with_carry value NZ msb) ;;
  my_write_op op value.

Definition my_ror (op : Z) : M unit :=
  c <- get_cpu ;;
  let value := u8 op in
  let lsb := Z.land value 0x01 in
  let value := u8 (Z.shiftr value 1
                   + (if SR_IS_SET SR_FLAG_CARRY c then 0x80 else 0x00)) in
  modify (my_update_sr_with_carry value NZ lsb) ;;
  my_write_op op value.

Definition my_rti : M unit :=
  s <- my_pop ;;
  modify (set_sr (u8 (Z.lor s SR_FLAG_BREAK))) ;;
  lo <- my_pop ;;
  modify (set_pc lo) ;;
  hi <- my_pop ;;
  modify (fun c => set_pc (u16 (Z.lor (my_pc c) (Z.shiftl hi 8))) c).

Definition my_rts : M unit :=
  lo <- my_pop ;;
  modify (set_pc lo) ;;
  hi <- my_pop ;;
  modify (fun c => set_pc (u16 (Z.lor (my_pc c) (Z.shiftl hi 8))) c) ;;
  (* Mimic the hardware behaviour, see JSR. *)
  modify (fun c => set_pc (u16 (my_pc c + 1)) c).

Definition my_pha : M unit :=
  c <- get_cpu ;; my_push (my_ac c).

(** The status register will be pushed with the break flag and bit 5 set
    to 1. *)
Definition my_php : M unit :=
  c <- get_cpu ;; my_push (Z.lor (my_sr c) SR_FLAG_BREAK).

Definition my_pla : M unit :=
  v <- my_pop ;;
  modify (set_ac v) ;;
  modify (fun c => my_update_sr (my_ac c) NZ c).

(** The unused bit must always be set. *)
Definition my_plp : M unit :=
  v <- my_pop ;;
  modify (set_sr (u8 (Z.lor v SR_FLAG_UNUSED))).

(** [my_adc(~value)]: [~value] is an [int], narrowed to the [uint8_t]
    parameter of [my_adc]. *)
Definition my_sbc (value : Z) (c : cpu) : cpu :=
  my_adc (u8 (Z.lnot (u8 value))) c.

Definition my_sec (c : cpu) : cpu := set_sr (Z.lor (my_sr c) SR_FLAG_CARRY) c.
Definition my_sed (c : cpu) : cpu := set_sr (Z.lor (my_sr c) SR_FLAG_DECIMAL) c.
Definition my_sei (c : cpu) : cpu :=
  set_sr (Z.lor (my_sr c) SR_FLAG_INTERRUPT) c.

Definition my_sta (addr : Z) : M unit := c <- get_cpu ;; my6502_write addr (my_ac c).
Definition my_stx (addr : Z) : M unit := c <- get_cpu ;; my6502_write addr (my_x c).
Definition my_sty (addr : Z) : M unit := c <- get_cpu ;; my6502_write addr (my_y c).

Definition my_tax (c : cpu) : cpu :=
  let c1 := set_x (my_ac c) c in my_update_sr (my_x c1) NZ c1.
Definition my_tay (c : cpu) : cpu :=
  let c1 := set_y (my_ac c) c in my_update_sr (my_y c1) NZ c1.
Definition my_tsx (c : cpu) : cpu :=
  let c1 := set_x (my_sp c) c in my_update_sr (my_x c1) NZ c1.
Definition my_txa (c : cpu) : cpu :=
  let c1 := set_ac (my_x c) c in my_update_sr (my_ac c1) NZ c1.
Definition my_txs (c : cpu) : cpu := set_sp (my_x c) c.
Definition my_tya (c : cpu) : cpu :=
  let c1 := set_ac (my_y c) c in my_update_sr (my_ac c1) NZ c1.

(** ** Dispatch

    The [switch] of [my6502_step], one entry per [OP(code, action)] line.
    The four shapes of action:
    - [OP_value mode f] is [f(my_read_op(mode))], [f] taking a [uint8_t];
    - [OP_rmw mode f] is [f(my_read_op(mode))], [f] taking the packed op;
    - [OP_addr mode f] is [f(my_read_addr(mode))] for a bus primitive;
    - [OP_jump mode f] is [f(my_read_addr(mode))] for a register primitive. *)
Definition OP_value (mode : my_addr) (f : Z -> cpu -> cpu) : M unit :=
  op <- my_read_op mode ;; modify (f (u8 op)).
Definition OP_rmw (mode : my_addr) (f : Z -> M unit) : M unit :=
  op <- my_read_op mode ;; f op.
Definition OP_addr (mode : my_addr) (f : Z -> M unit) : M unit :=
  addr <- my_read_addr mode ;; f addr.
Definition OP_jump (mode : my_addr) (f : Z -> cpu -> cpu) : M unit :=
  addr <- my_read_addr mode ;; modify (f addr).

Definition my6502_ops : list (Z * M unit) := [
  (0x00, my_brk);
  (0x01, OP_value INDIRECT_X my_ora);
  (0x05, OP_value ZEROPAGE my_ora);
  (0x06, OP_rmw ZEROPAGE my_asl);
  (0x08, my_php);
  (0x09, OP_value IMMEDIATE my_ora);
  (0x0A, OP_rmw ACCUMULATOR my_asl);
  (0x0D, OP_value ABSOLUTE my_ora);
  (0x0E, OP_rmw ABSOLUTE my_asl);
  (0x10, OP_jump RELATIVE my_bpl);
  (0x11, OP_value INDIRECT_Y my_ora);
  (0x15, OP_value ZEROPAGE_X my_ora);
  (0x16, OP_rmw ZEROPAGE_X my_asl);
  (0x18, modify my_clc);
  (0x19, OP_value ABSOLUTE_Y my_ora);
  (0x1D, OP_value ABSOLUTE_X my_ora);
  (0x1E, OP_rmw ABSOLUTE_X my_asl);
  (0x20, OP_addr ABSOLUTE my_jsr);
  (0x21, OP_value INDIRECT_X my_and);
  (0x24, OP_value ZEROPAGE my_bit);
  (0x25, OP_value ZEROPAGE my_and);
  (0x26, OP_rmw ZEROPAGE my_rol);
  (0x28, my_plp);
  (0x29, OP_value IMMEDIATE my_and);
  (0x2A, OP_rmw ACCUMULATOR my_rol);
  (0x2C, OP_value ABSOLUTE my_bit);
  (0x2D, OP_value ABSOLUTE my_and);
  (0x2E, OP_rmw ABSOLUTE my_rol);
  (0x30, OP_jump RELATIVE my_bmi);
  (0x31, OP_value INDIRECT_Y my_and);
  (0x35, OP_value ZEROPAGE_X my_and);
  (0x36, OP_rmw ZEROPAGE_X my_rol);
  (0x38, modify my_sec);
  (0x39, OP_value ABSOLUTE_Y my_and);
  (0x3D, OP_value ABSOLUTE_X my_and);
  (0x3E, OP_rmw ABSOLUTE_X my_rol);
  (0x40, my_rti);
  (0x41, OP_value INDIRECT_X my_eor);
  (0x45, OP_value ZEROPAGE my_eor);
  (0x46, OP_rmw ZEROPAGE my_lsr);
  (0x48, my_pha);
  (0x49, OP_value IMMEDIATE my_eor);
  (0x4A, OP_rmw ACCUMULATOR my_lsr);
  (0x4C, OP_jump ABSOLUTE my_jmp);
  (0x4D, OP_value ABSOLUTE my_eor);
  (0x4E, OP_rmw ABSOLUTE my_lsr);
  (0x50, OP_jump RELATIVE my_bvc);
  (0x51, OP_value INDIRECT_Y my_eor);
  (0x55, OP_value ZEROPAGE_X my_eor);
  (0x56, OP_rmw ZEROPAGE_X my_lsr);
  (0x58, modify my_cli);
  (0x59, OP_value ABSOLUTE_Y my_eor);
  (0x5D, OP_value ABSOLUTE_X my_eor);
  (0x5E, OP_rmw ABSOLUTE_X my_lsr);
  (0x60, my_rts);
  (0x61, OP_value INDIRECT_X my_adc);
  (0x65, OP_value ZEROPAGE my_adc);
  (0x66, OP_rmw ZEROPAGE my_ror);
  (0x68, my_pla);
  (0x69, OP_value IMMEDIATE my_adc);
  (0x6A, OP_rmw ACCUMULATOR my_ror);
  (0x6C, OP_jump INDIRECT my_jmp);
  (0x6D, OP_value ABSOLUTE my_adc);
  (0x6E, OP_rmw ABSOLUTE my_ror);
  (0x70, OP_jump RELATIVE my_bvs);
  (0x71, OP_value INDIRECT_Y my_adc);
  (0x75, OP_value ZEROPAGE_X my_adc);
  (0x76, OP_rmw ZEROPAGE_X my_ror);
  (0x78, modify my_sei);
  (0x79, OP_value ABSOLUTE_Y my_adc);
  (0x7D, OP_value ABSOLUTE_X my_adc);
  (0x7E, OP_rmw ABSOLUTE_X my_ror);
  (0x81, OP_addr INDIRECT_X my_sta);
  (0x84, OP_addr ZEROPAGE my_sty);
  (0x85, OP_addr ZEROPAGE my_sta);
  (0x86, OP_addr ZEROPAGE my_stx);
  (0x88, modify my_dey);
  (0x8A, modify my_txa);
  (0x8C, OP_addr ABSOLUTE my_sty);
  (0x8D, OP_addr ABSOLUTE my_sta);
  (0x8E, OP_addr ABSOLUTE my_stx);
  (0x90, OP_jump RELATIVE my_bcc);
  (0x91, OP_addr INDIRECT_Y my_sta);
  (0x94, OP_addr ZEROPAGE_X my_sty);
  (0x95, OP_addr ZEROPAGE_X my_sta);
  (0x96, OP_addr ZEROPAGE_Y my_stx);
  (0x98, modify my_tya);
  (0x99, OP_addr ABSOLUTE_Y my_sta);
  (0x9A, modify my_txs);
  (0x9D, OP_addr ABSOLUTE_X my_sta);
  (0xA0, OP_value IMMEDIATE my_ldy);
  (0xA1, OP_value INDIRECT_X my_lda);
  (0xA2, OP_value IMMEDIATE my_ldx);
  (0xA4, OP_value ZEROPAGE my_ldy);
  (0xA5, OP_value ZEROPAGE my_lda);
  (0xA6, OP_value ZEROPAGE my_ldx);
  (0xA8, modify my_tay);
  (0xA9, OP_value IMMEDIATE my_lda);
  (0xAA, modify my_tax);
  (0xAC, OP_value ABSOLUTE my_ldy);
  (0xAD, OP_value ABSOLUTE my_lda);
  (0xAE, OP_value ABSOLUTE my_ldx);
  (0xB0, OP_jump RELATIVE my_bcs);
  (0xB1, OP_value INDIRECT_Y my_lda);
  (0xB4, OP_value ZEROPAGE_X my_ldy);
  (0xB5, OP_value ZEROPAGE_X my_lda);
  (0xB6, OP_value ZEROPAGE_Y my_ldx);
  (0xB8, modify my_clv);
  (0xB9, OP_value ABSOLUTE_Y my_lda);
  (0xBA, modify my_tsx);
  (0xBC, OP_value ABSOLUTE_X my_ldy);
  (0xBD, OP_value ABSOLUTE_X my_lda);
  (0xBE, OP_value ABSOLUTE_Y my_ldx);
  (0xC0, OP_value IMMEDIATE my_cpy);
  (0xC1, OP_value INDIRECT_X my_cmp);
  (0xC4, OP_value ZEROPAGE my_cpy);
  (0xC5, OP_value ZEROPAGE my_cmp);
  (0xC6, OP_addr ZEROPAGE my_dec);
  (0xC8, modify my_iny);
  (0xC9, OP_value IMMEDIATE my_cmp);
  (0xCA, modify my_dex);
  (0xCC, OP_value ABSOLUTE my_cpy);
  (0xCD, OP_value ABSOLUTE my_cmp);
  (0xCE, OP_addr ABSOLUTE my_dec);
  (0xD0, OP_jump RELATIVE my_bne);
  (0xD1, OP_value INDIRECT_Y my_cmp);
  (0xD5, OP_value ZEROPAGE_X my_cmp);
  (0xD6, OP_addr ZEROPAGE_X my_dec);
  (0xD8, modify my_cld);
  (0xD9, OP_value ABSOLUTE_Y my_cmp);
  (0xDD, OP_value ABSOLUTE_X my_cmp);
  (0xDE, OP_addr ABSOLUTE_X my_dec);
  (0xE0, OP_value IMMEDIATE my_cpx);
  (0xE1, OP_value INDIRECT_X my_sbc);
  (0xE6, OP_addr ZEROPAGE my_inc);
  (0xE4, OP_value ZEROPAGE my_cpx);
  (0xE5, OP_value ZEROPAGE my_sbc);
  (0xE8, modify my_inx);
  (0xE9, OP_value IMMEDIATE my_sbc);
  (0xEA, modify my_nop);
  (0xEC, OP_value ABSOLUTE my_cpx);
  (0xED, OP_value ABSOLUTE my_sbc);
  (0xEE, OP_addr ABSOLUTE my_inc);
  (0xF0, OP_jump RELATIVE my_beq);
  (0xF1, OP_value INDIRECT_Y my_sbc);
  (0xF5, OP_value ZEROPAGE_X my_sbc);
  (0xF6, OP_addr ZEROPAGE_X my_inc);
  (0xF8, modify my_sed);
  (0xF9, OP_value ABSOLUTE_Y my_sbc);
  (0xFD, OP_value ABSOLUTE_X my_sbc);
  (0xFE, OP_addr ABSOLUTE_X my_inc)].

Fixpoint lookup_op (opcode : Z) (t : list (Z * M unit)) : option (M unit) :=
  match t with
  | [] => None
  | (k, act) :: t' => if k =? opcode then Some act else lookup_op opcode t'
  end.

Definition my6502_step : M unit :=
  opcode <- fetch_pc ;;
  match lookup_op opcode my6502_ops with
  | Some action => action
  | None => assert0 "my6502_step"
  end.

(** ** Driving the core *)

(** States the core can be in: after [my6502_reset entry] from any prior
    state, followed by any number of successful [my6502_step] calls. *)
Inductive reachable (entry : Z) : machine -> Prop :=
| reach_reset m0 m :
    my6502_reset entry m0 = Ok tt m -> reachable entry m
| reach_step m m' :
    reachable entry m -> my6502_step m = Ok tt m' -> reachable entry m'.

Fixpoint run (n : nat) : M unit :=
  match n with O => ret tt | S n' => my6502_step ;; run n' end.

(** [my6502_reset(entry)] followed by [n] calls of [my6502_step()]. *)
Definition boot (entry : Z) (n : nat) : M unit := my6502_reset entry ;; run n.

(** A host memory holding [bytes] from [base] on, over [rest]. *)
Fixpoint load_at (base : Z) (bytes : list Z) (rest : Z -> Z) : Z -> Z :=
  match bytes with
  | [] => rest
  | b :: bs => let rest' := load_at (base + 1) bs rest in
               fun a => if a =? base then b else rest' a
  end.

(** The byte the core gets when it reads address [a]. *)
Definition peek (m : machine) (a : Z) : Z := u8 (mem m (u16 a)).

(** The opcodes of the NMOS 6502 instruction set (masswerk.at table),
    listed independently of [my6502_ops]. *)
Definition nmos6502_opcodes : list Z := [
  0x00; 0x01; 0x05; 0x06; 0x08; 0x09; 0x0A; 0x0D; 0x0E;
  0x10; 0x11; 0x15; 0x16; 0x18; 0x19; 0x1D; 0x1E;
  0x20; 0x21; 0x24; 0x25; 0x26; 0x28; 0x29; 0x2A; 0x2C; 0x2D; 0x2E;
  0x30; 0x31; 0x35; 0x36; 0x38; 0x39; 0x3D; 0x3E;
  0x40; 0x41; 0x45; 0x46; 0x48; 0x49; 0x4A; 0x4C; 0x4D; 0x4E;
  0x50; 0x51; 0x55; 0x56; 0x58; 0x59; 0x5D; 0x5E;
  0x60; 0x61; 0x65; 0x66; 0x68; 0x69; 0x6A; 0x6C; 0x6D; 0x6E;
  0x70; 0x71; 0x75; 0x76; 0x78; 0x79; 0x7D; 0x7E;
  0x81; 0x84; 0x85; 0x86; 0x88; 0x8A; 0x8C; 0x8D; 0x8E;
  0x90; 0x91; 0x94; 0x95; 0x96; 0x98; 0x99; 0x9A; 0x9D;
  0xA0; 0xA1; 0xA2; 0xA4; 0xA5; 0xA6; 0xA8; 0xA9; 0xAA; 0xAC; 0xAD; 0xAE;
  0xB0; 0xB1; 0xB4; 0xB5; 0xB6; 0xB8; 0xB9; 0xBA; 0xBC; 0xBD; 0xBE;
  0xC0; 0xC1; 0xC4; 0xC5; 0xC6; 0xC8; 0xC9; 0xCA; 0xCC; 0xCD; 0xCE;
  0xD0; 0xD1; 0xD5; 0xD6; 0xD8; 0xD9; 0xDD; 0xDE;
  0xE0; 0xE1; 0xE4; 0xE5; 0xE6; 0xE8; 0xE9; 0xEA; 0xEC; 0xED; 0xEE;
  0xF0; 0xF1; 0xF5; 0xF6; 0xF8; 0xF9; 0xFD; 0xFE ].

Definition branch_opcodes : list Z :=
  [0x10; 0x30; 0x50; 0x70; 0x90; 0xB0; 0xD0; 0xF0].

(** A computation of the core that ends normally from every state: no
    [assert(0)] is reached. *)
Definition never_aborts {A} (c : M A) : Prop :=
  forall m, exists a m', c m = Ok a m'.

(** The registers hold values of their C types: [uint16_t] PC, [uint8_t]
    AC, X, Y, SR and SP. *)
Definition regs_wf (c : cpu) : Prop :=
  0 <= my_pc c < 65536 /\ 0 <= my_ac c < 256 /\ 0 <= my_x c < 256 /\
  0 <= my_y c < 256 /\ 0 <= my_sr c < 256 /\ 0 <= my_sp c < 256.

(** A computation that, run from well-typed registers, ends (if it ends
    normally) with well-typed registers and a result satisfying [P]. *)
Definition keeps_wf {A} (c : M A) (P : A -> Prop) : Prop :=
  forall m a m', regs_wf (regs m) -> c m = Ok a m' -> regs_wf (regs m') /\ P a.

(** ** The early eleven-opcode core

    The same source file carries a second, smaller version of the core.
    It has the same registers, host callbacks, reset, [my_update_sr],
    [my_cld], [my_dex], [my_dey] and [my_txs] as the full core (the C text
    is identical, so the definitions above are reused), and its own
    addressing-mode enum, branches, loads, [my_jmp], [my_sta] and
    dispatch. *)
Module Mini6502.

Inductive my_addr := IMMEDIATE | ABSOLUTE.

(** Branch on Result not Zero: the offset byte is read only when the
    branch is taken. *)
Definition my_bne : M unit :=
  c <- get_cpu ;;
  if negb (SR_IS_SET SR_FLAG_ZERO c) then
    offset <- fetch_pc ;;
    c1 <- get_cpu ;;
    modify (set_pc (u16 (my_pc c1 + sext8 offset)))
  else ret tt.

(** Branch on Result Zero. *)
Definition my_beq : M unit :=
  c <- get_cpu ;;
  if SR_IS_SET SR_FLAG_ZERO c then
    offset <- fetch_pc ;;
    c1 <- get_cpu ;;
    modify (set_pc (u16 (my_pc c1 + sext8 offset)))
  else ret tt.

Definition my_jmp (mode : my_addr) : M unit :=
  match mode with
  | ABSOLUTE =>
      lo <- fetch_pc ;;
      hi <- fetch_pc ;;
      modify (set_pc (u16 (Z.lor lo (Z.shiftl hi 8))))
  | _ => assert0 "my_jmp"
  end.

(** Load Accumulator with Memory *)
Definition my_lda (mode : my_addr) : M unit :=
  match mode with
  | IMMEDIATE =>
      v <- fetch_pc ;;
      modify (fun c => let c1 := set_ac v c in my_update_sr (my_ac c1) NZ c1)
  | _ => assert0 "my_lda"
  end.

(** The [uint8_t *reg] argument; the dispatch passes [&my_y] or [&my_x],
    so [assert(reg)] always holds. *)
Inductive index_reg := REG_X | REG_Y.

Definition set_index (r : index_reg) (v : Z) (c : cpu) : cpu :=
  match r with REG_X => set_x v c | REG_Y => set_y v c end.
Definition get_index (r : index_reg) (c : cpu) : Z :=
  match r with REG_X => my_x c | REG_Y => my_y c end.

Definition my_ld_index (reg : index_reg) (mode : my_addr) : M unit :=
  match mode with
  | IMMEDIATE =>
      v <- fetch_pc ;;
      modify (fun c => let c1 := set_index reg v c in
                       my_update_sr (get_index reg c1) NZ c1)
  | _ => assert0 "my_ld_index"
  end.

Definition my_sta (mode : my_addr) : M unit :=
  match mode with
  | ABSOLUTE =>
      lo <- fetch_pc ;;
      hi <- fetch_pc ;;
      c <- get_cpu ;;
      my6502_write (u16 (Z.lor lo (Z.shiftl hi 8))) (my_ac c)
  | _ => assert0 "my_sta"
  end.

(** The [switch] of [my6502_step]; it has no [default], so any other
    opcode does nothing beyond the fetch. *)
Definition my6502_ops : list (Z * M unit) := [
  (0x4C, my_jmp ABSOLUTE);
  (0x88, modify my_dey);
  (0x8D, my_sta ABSOLUTE);
  (0x9A, modify my_txs);
  (0xA0, my_ld_index REG_Y IMMEDIATE);
  (0xA2, my_ld_index REG_X IMMEDIATE);
  (0xA9, my_lda IMMEDIATE);
  (0xCA, modify my_dex);
  (0xD0, my_bne);
  (0xD8, modify my_cld);
  (0xF0, my_beq)
].

Definition my6502_step : M unit :=
  opcode <- fetch_pc ;;
  match lookup_op opcode my6502_ops with
  | Some action => action
  | None => ret tt
  end.

(** States of this core: a reset followed by successful steps. *)
Inductive reachable (entry : Z) : machine -> Prop :=
| reach_reset m0 m :
    my6502_reset entry m0 = Ok tt m -> reachable entry m
| reach_step m m' :
    reachable entry m -> my6502_step m = Ok tt m' -> reachable entry m'.

End Mini6502.

(** ** Sample machines

    Host memories are zero outside the bytes loaded. *)
Definition zero_mem : Z -> Z := fun _ => 0.

(** RTI at 0x0400 over a zero stack, then PHP at 0x0000. *)
Definition m_rti_php : machine :=
  mk_machine (mk_cpu 0 0 0 0 0 0)
    (load_at 0 [0x08] (load_at 0x400 [0x40] zero_mem)) [].

(** AC = 0x50 and carry set, before [SBC #$30] / [ADC #$CF]. *)
Definition cpu_ac50_c : cpu := mk_cpu 0x400 0x50 0 0 0x21 0xFD.
Definition m_sbc30 : machine :=
  mk_machine cpu_ac50_c (load_at 0x400 [0xE9; 0x30] zero_mem) [].
Definition m_adcCF : machine :=
  mk_machine cpu_ac50_c (load_at 0x400 [0x69; 0xCF] zero_mem) [].

(** [JSR $0405] at 0x0400; at 0x0405 the subroutine [INX; RTS]. *)
Definition m_jsr_inx_rts : machine :=
  mk_machine (mk_cpu 0x400 0 0 0 0x20 0xFD)
    (load_at 0x400 [0x20; 0x05; 0x04; 0x00; 0x00; 0xE8; 0x60] zero_mem) [].

(** [BEQ +$10] at 0x0400 with Z set. *)
Definition m_beq : machine :=
  mk_machine (mk_cpu 0x400 0x11 0x22 0x33 0x22 0xFD)
    (load_at 0x400 [0xF0; 0x10] zero_mem) [].

(** Undefined opcodes 0x02 at 0x0400 and 0xFF at 0x1234. *)
Definition m_op02 : machine :=
  mk_machine (mk_cpu 0x400 0 0 0 0x20 0xFD) (load_at 0x400 [0x02] zero_mem) [].
Definition m_opFF : machine :=
  mk_machine (mk_cpu 0x1234 0 0 0 0x20 0xFD) (load_at 0x1234 [0xFF] zero_mem) [].

(** [PHA] then [PLA] at 0x0400. *)
Definition m_pha_pla : machine :=
  mk_machine (mk_cpu 0x400 0x5A 0 0 0x20 0xFD) (load_at 0x400 [0x48; 0x68] zero_mem) [].

(** [PHP] then [PLP] at 0x0400. *)
Definition m_php_plp : machine :=
  mk_machine (mk_cpu 0x400 0 0 0 0xE3 0xFD) (load_at 0x400 [0x08; 0x28] zero_mem) [].

(** [BRK] at 0x0400, the IRQ vector pointing at an [RTI] at 0x0500. *)
Definition m_brk_rti : machine :=
  mk_machine (mk_cpu 0x400 0 0 0 0x20 0xFD)
    (load_at 0x400 [0x00] (load_at 0x500 [0x40] (load_at 0xFFFE [0x00; 0x05] zero_mem))) [].

(** [ROL A] then [ROR A] at 0x0400, with carry set. *)
Definition m_rol_ror : machine :=
  mk_machine (mk_cpu 0x400 0x81 0 0 0x21 0xFD) (load_at 0x400 [0x2A; 0x6A] zero_mem) [].

(** [STA $10] at 0x0400. *)
Definition m_sta_zp : machine :=
  mk_machine (mk_cpu 0x400 0x77 0 0 0x20 0xFD) (load_at 0x400 [0x85; 0x10] zero_mem) [].

(** [BNE +$10] at 0x0400 with Z set (branch not taken). *)
Definition m_bne_z : machine :=
  mk_machine (mk_cpu 0x400 0 0 0 0x22 0xFD) (load_at 0x400 [0xD0; 0x10] zero_mem) [].

Arguments u8 : simpl never.
Arguments u16 : simpl never.

(** ** Theorems *)

Ltac run_m :=
  cbv beta iota zeta delta [bind ret get_cpu modify my6502_read my6502_write
    fetch_pc my_push my_pop set_pc set_ac set_x set_y set_sr set_sp
    regs mem bus_log my_pc my_ac my_x my_y my_sr my_sp].

Ltac run_m_in H :=
  cbv beta iota zeta delta [peek regs mem bus_log my_pc my_ac my_x my_y
    my_sr my_sp] in H.

(** C10: [my6502_reset entry_pc] issues no bus access and leaves memory
    alone; it sets PC to [entry_pc] (a [uint16_t]), AC = X = Y = 0,
    SP = 0xFD and SR = 0x20, whatever the registers were before. *)
Theorem reset_from_argument_only (entry_pc : Z) (m : machine) :
  my6502_reset entry_pc m =
  Ok tt (mk_machine (mk_cpu (u16 entry_pc) 0 0 0 0x20 0xFD) (mem m) (bus_log m)).
Proof. reflexivity. Qed.

(** C1: the claim that SR bit 5 reads 1 in every reachable state fails.
    From reset, with memory all zero except [0x0400 = 0x40] (RTI), one step
    pulls SR from [0x01FE] (= 0x00) and sets SR = 0x10: [my_rti] ORs in the
    B flag only, while [my_plp] and the comment on [SR_FLAG_UNUSED] keep
    bit 5 at 1. *)
Theorem sr_bit5_cleared_by_rti :
  ~ (forall entry m, reachable entry m -> Z.testbit (my_sr (regs m)) 5 = true).
Proof.
  intro H.
  set (m0 := mk_machine (mk_cpu 0 0 0 0 0 0)
               (load_at 0x400 [0x40] (fun _ => 0)) []).
  assert (R : exists m, reachable 0x400 m /\ Z.testbit (my_sr (regs m)) 5 = false).
  { eexists. split.
    - eapply reach_step.
      + apply (reach_reset 0x400 m0). vm_compute. reflexivity.
      + vm_compute. reflexivity.
    - vm_compute. reflexivity. }
  destruct R as [m [Hr Hb]]. rewrite (H 0x400 m Hr) in Hb. discriminate Hb.
Qed.

(** C2: RTI pulls SR, then the PC low byte, then the PC high byte, and
    restores PC with no +1; SR gets the B flag forced but NOT bit 5.  From
    reset at 0x0400 with [0x0400 = 0x40] and the stack bytes
    [0x01FE = 0x00], [0x01FF = 0x34], [0x0100 = 0x12] (SP wraps), one step
    gives SR = 0x10 (bit 5 clear), PC = 0x1234 and SP = 0x00, reading
    exactly those three stack bytes in that order. *)
Theorem rti_does_not_force_bit5 :
  let m0 := mk_machine (mk_cpu 0 0 0 0 0 0)
              (fun a => if a =? 0x400 then 0x40
                        else if a =? 0x1FF then 0x34
                        else if a =? 0x100 then 0x12 else 0) [] in
  match (my6502_reset 0x400 ;; my6502_step) m0 with
  | Ok _ m =>
      my_sr (regs m) = 0x10 /\ Z.testbit (my_sr (regs m)) 5 = false /\
      my_pc (regs m) = 0x1234 /\ my_sp (regs m) = 0x00 /\
      bus_log m = [BusRead 0x400 0x40; BusRead 0x1FE 0x00;
                   BusRead 0x1FF 0x34; BusRead 0x100 0x12]
  | Abort _ _ => False
  end.
Proof. vm_compute. repeat split. Qed.

Lemma land_ff_mod (a : Z) : Z.land a 0xFF = a mod 256.
Proof. change 0xFF with (Z.ones 8). rewrite Z.land_ones by lia. reflexivity. Qed.

(** C8: zero-page-indexed addressing fetches the base byte at PC, advances
    PC by one, and yields [(base + idx) & 0xFF] with [idx] = X for
    ZEROPAGE_X and Y for ZEROPAGE_Y; that address is [(base + idx) mod 256],
    inside page 0. *)
Theorem zeropage_indexed_wraps (m : machine) :
  let base := peek m (my_pc (regs m)) in
  let m' := mk_machine (set_pc (u16 (my_pc (regs m) + 1)) (regs m)) (mem m)
              (bus_log m ++ [BusRead (u16 (my_pc (regs m))) base]) in
  my_read_addr ZEROPAGE_X m = Ok (Z.land (base + my_x (regs m)) 0xFF) m' /\
  my_read_addr ZEROPAGE_Y m = Ok (Z.land (base + my_y (regs m)) 0xFF) m' /\
  Z.land (base + my_x (regs m)) 0xFF = (base + my_x (regs m)) mod 256 /\
  Z.land (base + my_y (regs m)) 0xFF = (base + my_y (regs m)) mod 256 /\
  0 <= Z.land (base + my_x (regs m)) 0xFF < 256 /\
  0 <= Z.land (base + my_y (regs m)) 0xFF < 256.
Proof.
  cbv zeta. split; [reflexivity |]. split; [reflexivity |].
  rewrite !land_ff_mod.
  split; [reflexivity |]. split; [reflexivity |].
  split; apply Z.mod_pos_bound; lia.
Qed.

Ltac dispatch_op H :=
  unfold my6502_step; run_m; run_m_in H; rewrite H;
  cbn [lookup_op my6502_ops Z.eqb Pos.eqb].

(** C9: a branch opcode (BPL, BMI, BVC, BVS, BCC, BCS, BNE, BEQ) changes PC
    only: AC, X, Y, SP and SR are unchanged, memory is untouched, and the
    only bus accesses are the opcode fetch and the offset fetch, taken or
    not. *)
Theorem branch_changes_only_pc (op : Z) (m : machine) :
  In op branch_opcodes -> peek m (my_pc (regs m)) = op ->
  let pc1 := u16 (my_pc (regs m) + 1) in
  exists c',
    my6502_step m =
      Ok tt (mk_machine c' (mem m)
               (bus_log m ++ [BusRead (u16 (my_pc (regs m))) op;
                              BusRead (u16 pc1) (peek m pc1)])) /\
    my_ac c' = my_ac (regs m) /\ my_x c' = my_x (regs m) /\
    my_y c' = my_y (regs m) /\ my_sp c' = my_sp (regs m) /\
    my_sr c' = my_sr (regs m).
Proof.
  intros Hin Hop.
  simpl in Hin.
  destruct Hin as [<-|[<-|[<-|[<-|[<-|[<-|[<-|[<-|[]]]]]]]]];
    dispatch_op Hop;
    unfold OP_jump, my_read_addr; run_m;
    unfold my_bpl, my_bmi, my_bvc, my_bvs, my_bcc, my_bcs, my_bne, my_beq;
    match goal with
    | |- context [if ?b then _ else _] => destruct b
    end;
    (eexists; split; [rewrite <- app_assoc; reflexivity | cbn; repeat split]).
Qed.

(** ** Helper facts on the 8/16-bit conversions *)

Lemma u8_range (v : Z) : 0 <= u8 v < 256.
Proof. unfold u8. apply Z.mod_pos_bound. lia. Qed.

Lemma u16_range (v : Z) : 0 <= u16 v < 65536.
Proof. unfold u16. apply Z.mod_pos_bound. lia. Qed.

Lemma u8_small (v : Z) : 0 <= v < 256 -> u8 v = v.
Proof. intros. unfold u8. apply Z.mod_small. lia. Qed.

Lemma u16_small (v : Z) : 0 <= v < 65536 -> u16 v = v.
Proof. intros. unfold u16. apply Z.mod_small. lia. Qed.

(** [lo | (hi << 8)] with a byte [lo] is [lo + 256 * hi]. *)
Lemma lor_byte_join (lo hi : Z) :
  0 <= lo < 256 -> 0 <= hi -> Z.lor lo (Z.shiftl hi 8) = lo + hi * 256.
Proof.
  intros Hlo Hhi.
  rewrite Z.shiftl_mul_pow2 by lia.
  assert (H0 : Z.land lo (hi * 2 ^ 8) = 0).
  { apply Z.bits_inj'. intros n Hn. rewrite Z.land_spec, Z.bits_0.
    destruct (Z.lt_ge_cases n 8).
    - rewrite Z.mul_pow2_bits_low by lia. apply andb_false_r.
    - replace lo with (lo mod 2 ^ 8) by (apply Z.mod_small; lia).
      rewrite Z.mod_pow2_bits_high by lia. reflexivity. }
  rewrite <- (Z.lxor_lor _ _ H0), <- (Z.add_nocarry_lxor _ _ H0). lia.
Qed.

(** One step on JSR (0x20), as the code computes it. *)
Lemma jsr_step (m : machine) :
  peek m (my_pc (regs m)) = 0x20 ->
  let c := regs m in
  let pc1 := u16 (my_pc c + 1) in
  let pc2 := u16 (pc1 + 1) in
  let pc3 := u16 (pc2 + 1) in
  let lo := peek m pc1 in
  let hi := peek m pc2 in
  let old_pc := u16 (pc3 - 1) in
  let a1 := u16 (STACK_OFFSET + my_sp c) in
  let v1 := u8 (u8 (Z.shiftr old_pc 8)) in
  let a2 := u16 (STACK_OFFSET + u8 (my_sp c - 1)) in
  let v2 := u8 (u8 old_pc) in
  my6502_step m =
    Ok tt (mk_machine
             (mk_cpu (u16 (Z.lor lo (Z.shiftl hi 8))) (my_ac c) (my_x c)
                (my_y c) (my_sr c) (u8 (u8 (my_sp c - 1) - 1)))
             (fun a => if a =? a2 then v2 else if a =? a1 then v1 else mem m a)
             (bus_log m ++ [BusRead (u16 (my_pc c)) 0x20; BusRead (u16 pc1) lo;
                            BusRead (u16 pc2) hi; BusWrite a1 v1;
                            BusWrite a2 v2])).
Proof.
  intros H. dispatch_op H.
  unfold OP_addr, my_read_addr, my_read_addr_from_mem_pc, my_jsr. run_m.
  rewrite <- !app_assoc. reflexivity.
Qed.

(** One step on RTS (0x60), as the code computes it. *)
Lemma rts_step (m : machine) :
  peek m (my_pc (regs m)) = 0x60 ->
  let c := regs m in
  let sp1 := u8 (my_sp c + 1) in
  let sp2 := u8 (sp1 + 1) in
  let lo := peek m (STACK_OFFSET + sp1) in
  let hi := peek m (STACK_OFFSET + sp2) in
  my6502_step m =
    Ok tt (mk_machine
             (mk_cpu (u16 (u16 (Z.lor lo (Z.shiftl hi 8)) + 1)) (my_ac c)
                (my_x c) (my_y c) (my_sr c) sp2)
             (mem m)
             (bus_log m ++ [BusRead (u16 (my_pc c)) 0x60;
                            BusRead (u16 (STACK_OFFSET + sp1)) lo;
                            BusRead (u16 (STACK_OFFSET + sp2)) hi])).
Proof.
  intros H. dispatch_op H. unfold my_rts. run_m.
  rewrite <- !app_assoc. reflexivity.
Qed.

Lemma regs_mk c f l : regs (mk_machine c f l) = c.
Proof. reflexivity. Qed.
Lemma mem_mk c f l : mem (mk_machine c f l) = f.
Proof. reflexivity. Qed.
Lemma my_pc_mk pc ac x y sr sp : my_pc (mk_cpu pc ac x y sr sp) = pc.
Proof. reflexivity. Qed.
Lemma my_sp_mk pc ac x y sr sp : my_sp (mk_cpu pc ac x y sr sp) = sp.
Proof. reflexivity. Qed.

Lemma u8_u8 (v : Z) : u8 (u8 v) = u8 v.
Proof. apply u8_small, u8_range. Qed.

Lemma u16_u16 (v : Z) : u16 (u16 v) = u16 v.
Proof. apply u16_small, u16_range. Qed.

Lemma peek_u16 (m : machine) (a : Z) : peek m (u16 a) = peek m a.
Proof. unfold peek. rewrite u16_u16. reflexivity. Qed.

Lemma u16_add_u16 (a b : Z) : u16 (u16 a + b) = u16 (a + b).
Proof. unfold u16. rewrite Zplus_mod_idemp_l. reflexivity. Qed.

Lemma peek_add_u16 (m : machine) (a b : Z) : peek m (u16 a + b) = peek m (a + b).
Proof. unfold peek. rewrite u16_add_u16. reflexivity. Qed.

Lemma u16_sub_u16 (a b : Z) : u16 (u16 a - b) = u16 (a - b).
Proof. unfold u16. rewrite Zminus_mod_idemp_l. reflexivity. Qed.

Lemma u8_add_u8 (a b : Z) : u8 (u8 a + b) = u8 (a + b).
Proof. unfold u8. rewrite Zplus_mod_idemp_l. reflexivity. Qed.

Lemma u8_sub_u8 (a b : Z) : u8 (u8 a - b) = u8 (a - b).
Proof. unfold u8. rewrite Zminus_mod_idemp_l. reflexivity. Qed.

(** Two pushes then two pulls address the same two stack bytes. *)
Lemma stack_two_slots (sp : Z) :
  0 <= sp < 256 ->
  u8 (u8 (u8 (sp - 1) - 1) + 1) = u8 (sp - 1) /\
  u8 (u8 (u8 (u8 (sp - 1) - 1) + 1) + 1) = sp /\
  u16 (STACK_OFFSET + u8 (sp - 1)) <> u16 (STACK_OFFSET + sp).
Proof.
  intros Hsp.
  assert (E1 : u8 (u8 (u8 (sp - 1) - 1) + 1) = u8 (sp - 1)).
  { rewrite u8_add_u8. replace (u8 (sp - 1) - 1 + 1) with (u8 (sp - 1)) by ring.
    apply u8_u8. }
  split; [exact E1 |]. split.
  { rewrite E1, u8_add_u8. replace (sp - 1 + 1) with sp by ring.
    apply u8_small; lia. }
  pose proof (u8_range (sp - 1)) as R.
  rewrite !u16_small by (unfold STACK_OFFSET; lia).
  unfold u8 in *. intro E. unfold STACK_OFFSET in E.
  assert (sp = 0 \/ 0 < sp) as [-> | Hpos] by lia.
  - vm_compute in E. discriminate E.
  - rewrite Z.mod_small in E by lia. lia.
Qed.

(** The return address as pushed by JSR and rebuilt by RTS. *)
Lemma return_address_rebuilt (p : Z) :
  0 <= p < 65536 ->
  let old_pc := u16 (u16 (u16 (u16 (p + 1) + 1) + 1) - 1) in
  old_pc = (p + 2) mod 65536 /\
  u16 (u16 (Z.lor (u8 (u8 (u8 old_pc)))
                  (Z.shiftl (u8 (u8 (u8 (Z.shiftr old_pc 8)))) 8)) + 1)
  = (p + 3) mod 65536.
Proof.
  intros Hp. cbv zeta.
  assert (Hold : u16 (u16 (u16 (u16 (p + 1) + 1) + 1) - 1) = (p + 2) mod 65536).
  { unfold u16. Z.div_mod_to_equations. lia. }
  rewrite Hold. split; [reflexivity |].
  rewrite !u8_u8.
  pose proof (Z.mod_pos_bound (p + 2) 65536 ltac:(lia)) as Hq.
  set (q := (p + 2) mod 65536) in *.
  rewrite lor_byte_join by (try apply u8_range; pose proof (u8_range (Z.shiftr q 8)); lia).
  rewrite Z.shiftr_div_pow2 by lia.
  rewrite (u8_small (q / 2 ^ 8)) by (split; [apply Z.div_pos | apply Z.div_lt_upper_bound]; lia).
  rewrite u16_add_u16.
  unfold u8, u16.
  assert (Hdm : q mod 256 + q / 2 ^ 8 * 256 = q).
  { change (2 ^ 8) with 256. pose proof (Z.div_mod q 256). lia. }
  rewrite Hdm. unfold q. rewrite Zplus_mod_idemp_l. f_equal. ring.
Qed.

(** C5: JSR at [p] (opcode 0x20) pushes [p+2], the address of its own last
    byte, high byte first then low byte.  A later RTS returns to [p+3], the
    byte after the JSR, and sets SP back to its value before JSR: this holds
    in any state reached afterwards (whatever ran in between) where SP is
    the one JSR left, the two stack bytes JSR wrote are still in place (so
    the bus returns them), and the byte at PC is 0x60. *)
Theorem jsr_then_rts_returns_after_jsr (m : machine) (p : Z) :
  0 <= p < 65536 -> my_pc (regs m) = p -> 0 <= my_sp (regs m) < 256 ->
  peek m p = 0x20 ->
  let sp := my_sp (regs m) in
  let ret_addr := (p + 2) mod 65536 in
  let a_hi := 0x100 + sp in
  let a_lo := 0x100 + (sp + 255) mod 256 in
  exists m1,
    my6502_step m = Ok tt m1 /\
    bus_log m1 =
      bus_log m ++ [BusRead p 0x20;
                    BusRead ((p + 1) mod 65536) (peek m (p + 1));
                    BusRead ((p + 2) mod 65536) (peek m (p + 2));
                    BusWrite a_hi (ret_addr / 256);
                    BusWrite a_lo (ret_addr mod 256)] /\
    (forall m',
       my_sp (regs m') = my_sp (regs m1) ->
       mem m' a_lo = mem m1 a_lo -> mem m' a_hi = mem m1 a_hi ->
       peek m' (my_pc (regs m')) = 0x60 ->
       exists m2,
         my6502_step m' = Ok tt m2 /\
         my_pc (regs m2) = (p + 3) mod 65536 /\ my_sp (regs m2) = sp).
Proof.
  intros Hp Hpc Hsp Hop. cbv zeta.
  destruct m as [[pc ac x y sr sp] mm log].
  cbn [regs my_pc my_sp] in Hpc, Hsp. subst pc.
  pose proof (jsr_step _ Hop) as E. cbv zeta in E.
  cbn [regs mem bus_log my_pc my_sp my_ac my_x my_y my_sr] in E |- *.
  assert (Alo : u16 (STACK_OFFSET + u8 (sp - 1)) = 0x100 + (sp + 255) mod 256).
  { unfold STACK_OFFSET, u8, u16.
    pose proof (Z.mod_pos_bound (sp - 1) 256 ltac:(lia)).
    rewrite Z.mod_small by lia.
    replace ((sp - 1) mod 256) with ((sp + 255) mod 256)
      by (Z.div_mod_to_equations; lia). reflexivity. }
  assert (Ahi : u16 (STACK_OFFSET + sp) = 0x100 + sp).
  { unfold STACK_OFFSET. apply u16_small. lia. }
  rewrite E. eexists. split; [reflexivity |]. split.
  - cbn [bus_log]. f_equal.
    rewrite !peek_u16, peek_add_u16.
    destruct (return_address_rebuilt p Hp) as [Hold _]. rewrite Hold.
    rewrite !u16_u16, u16_add_u16, !u8_u8.
    rewrite Z.shiftr_div_pow2 by lia.
    pose proof (Z.mod_pos_bound (p + 2) 65536 ltac:(lia)).
    rewrite (u8_small ((p + 2) mod 65536 / 2 ^ 8))
      by (split; [apply Z.div_pos | apply Z.div_lt_upper_bound]; lia).
    replace (p + 1 + 1) with (p + 2) by ring.
    rewrite (u16_small p) by lia.
    rewrite Alo, Ahi.
    unfold u8, u16.
    change (2 ^ 8) with 256. reflexivity.
  - intros m' Hsp' Hlo Hhi H60.
    pose proof (rts_step _ H60) as E2. cbv zeta in E2.
    rewrite E2. eexists. split; [reflexivity |].
    cbn [regs my_pc my_sp] in Hsp' |- *. rewrite Hsp'.
    destruct (stack_two_slots sp Hsp) as [S1 [S2 S3]].
    rewrite S2, S1. split; [| reflexivity].
    unfold peek. rewrite Alo, Ahi, Hlo, Hhi, <- Alo, <- Ahi. cbn [mem].
    rewrite (proj2 (Z.eqb_neq _ _) (not_eq_sym S3)), !Z.eqb_refl.
    destruct (return_address_rebuilt p Hp) as [_ Hret].
    exact Hret.
Qed.

(** ** Bit-level facts on the status register *)

Lemma land_pow2 (v j : Z) :
  0 <= j -> Z.land v (2 ^ j) = if Z.testbit v j then 2 ^ j else 0.
Proof.
  intros Hj. apply Z.bits_inj'. intros n Hn.
  rewrite Z.land_spec, Z.pow2_bits_eqb by lia.
  destruct (Z.testbit v j) eqn:T.
  - rewrite Z.pow2_bits_eqb by lia.
    destruct (Z.eqb_spec j n) as [<- |]; [rewrite T | apply andb_false_r]; reflexivity.
  - rewrite Z.bits_0.
    destruct (Z.eqb_spec j n) as [<- |]; [rewrite T; reflexivity | apply andb_false_r].
Qed.

Lemma land_pow2_eqb0 (v j : Z) :
  0 <= j -> (Z.land v (2 ^ j) =? 0) = negb (Z.testbit v j).
Proof.
  intros Hj. rewrite land_pow2 by lia.
  destruct (Z.testbit v j); [| reflexivity].
  apply Z.eqb_neq. pose proof (Z.pow_pos_nonneg 2 j). lia.
Qed.

Lemma u8_bit (v k : Z) : k < 8 -> Z.testbit (u8 v) k = Z.testbit v k.
Proof. intros. unfold u8. change 256 with (2 ^ 8). apply Z.mod_pow2_bits_low. lia. Qed.

Lemma sr_set_bit (j k : Z) (c : cpu) :
  0 <= j -> 0 <= k < 8 ->
  Z.testbit (my_sr (SR_SET (2 ^ j) c)) k = Z.testbit (my_sr c) k || (j =? k).
Proof.
  intros. unfold SR_SET, set_sr. cbn [my_sr].
  rewrite u8_bit, Z.lor_spec, Z.pow2_bits_eqb by lia. reflexivity.
Qed.

Lemma sr_clr_bit (j k : Z) (c : cpu) :
  0 <= j -> 0 <= k < 8 ->
  Z.testbit (my_sr (SR_CLR (2 ^ j) c)) k = Z.testbit (my_sr c) k && negb (j =? k).
Proof.
  intros. unfold SR_CLR, set_sr. cbn [my_sr].
  rewrite u8_bit, Z.land_spec, Z.lnot_spec, Z.pow2_bits_eqb by lia. reflexivity.
Qed.

Lemma sr_is_set_bit (j : Z) (c : cpu) :
  0 <= j -> SR_IS_SET (2 ^ j) c = Z.testbit (my_sr c) j.
Proof. intros. unfold SR_IS_SET. rewrite land_pow2_eqb0 by lia. apply negb_involutive. Qed.

Ltac bool_finish :=
  repeat match goal with
         | |- context [Z.testbit ?a ?b] => destruct (Z.testbit a b)
         end;
  reflexivity.

(** [my_update_sr_with_carry v NZ cv]: bit 0 from [cv], bit 1 = (v == 0),
    bit 7 from [v], every other bit and every other register kept. *)
Lemma update_sr_with_carry_NZ (v cv : Z) (c : cpu) (k : Z) :
  0 <= k < 8 ->
  Z.testbit (my_sr (my_update_sr_with_carry v NZ cv c)) k =
    if k =? 0 then negb (u8 cv =? 0)
    else if k =? 1 then (u8 v =? 0)
    else if k =? 7 then Z.testbit v 7
    else Z.testbit (my_sr c) k.
Proof.
  intros Hk.
  unfold my_update_sr_with_carry, my_update_sr. cbv zeta.
  change (negb (Z.land NZ SR_FLAG_NEGATIVE =? 0)) with true.
  change (negb (Z.land NZ SR_FLAG_ZERO =? 0)) with true. cbv iota.
  change SR_FLAG_CARRY with (2 ^ 0). change SR_FLAG_ZERO with (2 ^ 1).
  change SR_FLAG_NEGATIVE with (2 ^ 7). change 0x80 with (2 ^ 7).
  rewrite land_pow2_eqb0, negb_involutive, u8_bit by lia.
  destruct (u8 cv =? 0); cbn [negb];
    [rewrite sr_clr_bit by lia | rewrite sr_set_bit by lia];
    (destruct (u8 v =? 0);
      [rewrite sr_set_bit by lia | rewrite sr_clr_bit by lia]);
    (destruct (Z.testbit v 7);
      [rewrite sr_set_bit by lia | rewrite sr_clr_bit by lia]);
    (destruct (Z.eqb_spec k 0); [subst; bool_finish |]);
    (destruct (Z.eqb_spec k 1); [subst; bool_finish |]);
    (destruct (Z.eqb_spec k 7); [subst; bool_finish |]);
    repeat (rewrite (proj2 (Z.eqb_neq _ _)) by lia);
    cbn [negb andb orb]; rewrite ?andb_true_r, ?orb_false_r; reflexivity.
Qed.

Lemma update_sr_with_carry_ac (v f cv : Z) (c : cpu) :
  my_ac (my_update_sr_with_carry v f cv c) = my_ac c.
Proof.
  unfold my_update_sr_with_carry, my_update_sr, SR_SET, SR_CLR.
  repeat match goal with |- context [if ?b then _ else _] => destruct b end;
    reflexivity.
Qed.

(** C3: for a byte [a] in AC, an operand byte [b] and the carry-in [c]
    (bit 0 of SR), [my_adc b] leaves AC = (a + b + c) & 0xFF,
    C = (a + b + c >= 256), Z = (AC == 0), N = bit 7 of AC and
    V = (((a ^ AC) & (b ^ AC) & 0x80) != 0). *)
Theorem adc_result_and_flags (c : cpu) (b : Z) :
  0 <= my_ac c < 256 -> 0 <= b < 256 ->
  let a := my_ac c in
  let cin := if Z.testbit (my_sr c) 0 then 1 else 0 in
  let c' := my_adc b c in
  let ac := my_ac c' in
  ac = Z.land (a + b + cin) 0xFF /\
  Z.testbit (my_sr c') 0 = (256 <=? a + b + cin) /\
  Z.testbit (my_sr c') 1 = (ac =? 0) /\
  Z.testbit (my_sr c') 7 = Z.testbit ac 7 /\
  Z.testbit (my_sr c') 6 =
    negb (Z.land (Z.land (Z.lxor a ac) (Z.lxor b ac)) 0x80 =? 0).
Proof.
  intros Ha Hb. cbv zeta.
  unfold my_adc. cbv zeta.
  rewrite (u8_small b) by lia.
  change SR_FLAG_CARRY with (2 ^ 0). rewrite sr_is_set_bit by lia.
  set (cin := if Z.testbit (my_sr c) 0 then 1 else 0).
  assert (Hcin : 0 <= cin <= 1) by (unfold cin; destruct (Z.testbit _ _); lia).
  replace (if Z.testbit (my_sr c) 0 then u16 (u16 (my_ac c + b) + 1)
           else u16 (my_ac c + b)) with (my_ac c + b + cin)
    by (unfold cin; destruct (Z.testbit _ _);
        rewrite ?u16_add_u16, u16_small by lia; lia).
  set (r := my_ac c + b + cin).
  set (c1 := if _ : bool then _ else _).
  rewrite !update_sr_with_carry_ac. cbn [set_ac my_ac].
  rewrite !update_sr_with_carry_NZ by lia.
  cbn [Z.eqb Pos.eqb set_ac my_sr].
  split; [rewrite land_ff_mod; reflexivity |].
  split; [destruct (256 <=? r); reflexivity |].
  split; [rewrite u8_u8; reflexivity |].
  split; [reflexivity |].
  change 0x80 with (2 ^ 7) in *.
  rewrite land_pow2_eqb0 by lia. rewrite negb_involutive.
  rewrite Z.land_spec, !Z.lxor_spec, !u8_bit by lia.
  unfold c1. change SR_FLAG_OVERFLOW with (2 ^ 6).
  rewrite !(land_pow2 _ 7) by lia.
  change (2 ^ 7) with 128.
  destruct (Z.testbit (my_ac c) 7), (Z.testbit b 7), (Z.testbit r 7);
    cbv beta iota delta [Z.eqb Pos.eqb andb negb xorb orb]; first [rewrite sr_set_bit by lia | rewrite sr_clr_bit by lia];
    cbv beta iota delta [Z.eqb Pos.eqb negb];
    rewrite ?orb_true_r, ?andb_false_r; reflexivity.
Qed.

(** The value byte of a packed operand is the low byte of the packing. *)
Lemma u8_pack_op (addr : Z) (mode : my_addr) (v : Z) :
  u8 (pack_op addr mode v) = u8 v.
Proof.
  unfold u8, pack_op. change 256 with (2 ^ 8).
  apply Z.bits_inj'. intros k Hk.
  destruct (Z.ltb_spec k 8).
  - rewrite !Z.mod_pow2_bits_low, !Z.lor_spec, !Z.shiftl_spec_low by lia.
    reflexivity.
  - rewrite !Z.mod_pow2_bits_high by lia. reflexivity.
Qed.

(** One step on an instruction whose table entry is [OP_value IMMEDIATE f]. *)
Lemma imm_value_step (m : machine) (op : Z) (f : Z -> cpu -> cpu) :
  peek m (my_pc (regs m)) = op ->
  lookup_op op my6502_ops = Some (OP_value IMMEDIATE f) ->
  let c := regs m in
  let pc1 := u16 (my_pc c + 1) in
  my6502_step m =
    Ok tt (mk_machine (f (peek m pc1) (set_pc (u16 (pc1 + 1)) c)) (mem m)
             (bus_log m ++ [BusRead (u16 (my_pc c)) op;
                            BusRead (u16 pc1) (peek m pc1)])).
Proof.
  intros H Hl. destruct m as [[pc ac x y sr sp] mm log].
  unfold my6502_step. run_m. run_m_in H. rewrite H, Hl.
  unfold OP_value, my_read_op. run_m.
  rewrite u8_pack_op, u8_u8, <- app_assoc. reflexivity.
Qed.

(** C4: SBC #b (0xE9) and ADC #(~b) (0x69) run from the same registers end
    in the same registers (AC, all of SR, PC, X, Y, SP), whatever the
    carry-in. *)
Theorem sbc_is_adc_of_complement (m1 m2 : machine) :
  regs m1 = regs m2 ->
  peek m1 (my_pc (regs m1)) = 0xE9 ->
  peek m2 (my_pc (regs m2)) = 0x69 ->
  peek m2 (my_pc (regs m2) + 1) = u8 (Z.lnot (peek m1 (my_pc (regs m1) + 1))) ->
  exists m1' m2',
    my6502_step m1 = Ok tt m1' /\ my6502_step m2 = Ok tt m2' /\
    regs m1' = regs m2' /\
    regs m1' = my_adc (u8 (Z.lnot (peek m1 (my_pc (regs m1) + 1))))
                 (set_pc (u16 (u16 (my_pc (regs m1) + 1) + 1)) (regs m1)).
Proof.
  intros Hr H1 H2 Hv.
  rewrite (imm_value_step m1 0xE9 my_sbc H1 eq_refl).
  rewrite (imm_value_step m2 0x69 my_adc H2 eq_refl).
  cbv zeta. rewrite !peek_u16, Hv, <- Hr.
  do 2 eexists. split; [reflexivity |]. split; [reflexivity |].
  rewrite !regs_mk. unfold my_sbc, peek. rewrite u8_u8. split; reflexivity.
Qed.

(** Every case of the [switch] of [my6502_step] is an NMOS 6502 opcode. *)
Lemma my6502_ops_keys (op : Z) :
  In op (map fst my6502_ops) -> In op nmos6502_opcodes.
Proof.
  assert (Hb : forallb (fun k => existsb (Z.eqb k) nmos6502_opcodes)
                 (map fst my6502_ops) = true) by (vm_compute; reflexivity).
  rewrite forallb_forall in Hb. intros H.
  apply Hb, existsb_exists in H. destruct H as [x [Hx E]].
  apply Z.eqb_eq in E. subst. exact Hx.
Qed.

Lemma lookup_op_none (op : Z) (t : list (Z * M unit)) :
  ~ In op (map fst t) -> lookup_op op t = None.
Proof.
  induction t as [| [k act] t IH]; intros Hn; [reflexivity |].
  cbn [lookup_op]. cbn [map fst In] in Hn.
  destruct (Z.eqb_spec k op); [exfalso; auto |].
  apply IH. intro; auto.
Qed.

(** One step on PHP (0x08): the byte pushed at [0x100 + SP] is [SR | B]. *)
Lemma php_step (m : machine) :
  peek m (my_pc (regs m)) = 0x08 ->
  let c := regs m in
  let a := u16 (STACK_OFFSET + my_sp c) in
  let v := u8 (Z.lor (my_sr c) SR_FLAG_BREAK) in
  my6502_step m =
    Ok tt (mk_machine (set_sp (u8 (my_sp c - 1)) (set_pc (u16 (my_pc c + 1)) c))
             (fun x => if x =? a then v else mem m x)
             (bus_log m ++ [BusRead (u16 (my_pc c)) 0x08; BusWrite a v])).
Proof.
  intros H. destruct m as [[pc ac x y sr sp] mm log].
  dispatch_op H. unfold my_php. run_m.
  rewrite <- app_assoc, u8_u8. reflexivity.
Qed.

(** C6: from reset at 0x0400, an RTI pulling a zero byte leaves SR = 0x10,
    and the PHP that follows pushes 0x10: the pushed copy has B set but
    bit 5 clear. *)
Theorem php_pushes_bit5_clear_after_rti :
  exists m,
    boot 0x400 2 m_rti_php = Ok tt m /\
    bus_log m = [BusRead 0x400 0x40; BusRead 0x1FE 0; BusRead 0x1FF 0;
                 BusRead 0x100 0; BusRead 0 0x08; BusWrite 0x100 0x10] /\
    my_sr (regs m) = 0x10 /\ Z.testbit 0x10 5 = false.
Proof. eexists. split; [vm_compute; reflexivity |]. vm_compute. auto. Qed.

(** C7 (amended): on a byte that is not an NMOS 6502 opcode, [my6502_step]
    fetches it, advancing PC by one, and then fails the [assert(0)] of its
    [default] case, which names only the function; AC, X, Y, SR, SP and the
    memory are as before the step, and the fetch is the only bus access. *)
Theorem undefined_opcode_aborts (m : machine) :
  ~ In (peek m (my_pc (regs m))) nmos6502_opcodes ->
  my6502_step m =
    Abort "my6502_step"
      (mk_machine (set_pc (u16 (my_pc (regs m) + 1)) (regs m)) (mem m)
         (bus_log m ++ [BusRead (u16 (my_pc (regs m))) (peek m (my_pc (regs m)))])).
Proof.
  intros Hn. destruct m as [c mm log].
  unfold my6502_step. run_m.
  rewrite lookup_op_none by (intro Hk; apply Hn, my6502_ops_keys, Hk).
  reflexivity.
Qed.

(** C7: the failure is not an IllegalOpcode value carrying the byte and PC:
    0x02 at 0x0400 and 0xFF at 0x1234 fail the same [assert(0)] of
    [my6502_step], and PC has already moved past the opcode. *)
Lemma undefined_opcode_report_counterexample :
  exists s1 s2,
    my6502_step m_op02 = Abort "my6502_step" s1 /\
    my6502_step m_opFF = Abort "my6502_step" s2 /\
    my_pc (regs s1) = 0x401 /\ my_pc (regs s2) = 0x1235.
Proof. do 2 eexists. vm_compute. repeat split. Qed.

(** ** Instances of the theorems on the sample machines *)

Lemma adc_result_and_flags_witness :
  (0 <= my_ac cpu_ac50_c < 256 /\ 0 <= 0x50 < 256) /\
  (let a := my_ac cpu_ac50_c in
   let cin := if Z.testbit (my_sr cpu_ac50_c) 0 then 1 else 0 in
   let c' := my_adc 0x50 cpu_ac50_c in
   let ac := my_ac c' in
   ac = Z.land (a + 0x50 + cin) 0xFF /\
   Z.testbit (my_sr c') 0 = (256 <=? a + 0x50 + cin) /\
   Z.testbit (my_sr c') 1 = (ac =? 0) /\
   Z.testbit (my_sr c') 7 = Z.testbit ac 7 /\
   Z.testbit (my_sr c') 6 =
     negb (Z.land (Z.land (Z.lxor a ac) (Z.lxor 0x50 ac)) 0x80 =? 0)).
Proof.
  split; [cbn; lia |].
  apply adc_result_and_flags; cbn; lia.
Defined.

Lemma sbc_is_adc_of_complement_witness :
  (regs m_sbc30 = regs m_adcCF /\
   peek m_sbc30 (my_pc (regs m_sbc30)) = 0xE9 /\
   peek m_adcCF (my_pc (regs m_adcCF)) = 0x69 /\
   peek m_adcCF (my_pc (regs m_adcCF) + 1) =
     u8 (Z.lnot (peek m_sbc30 (my_pc (regs m_sbc30) + 1)))) /\
  exists m1' m2',
    my6502_step m_sbc30 = Ok tt m1' /\ my6502_step m_adcCF = Ok tt m2' /\
    regs m1' = regs m2' /\
    regs m1' = my_adc (u8 (Z.lnot (peek m_sbc30 (my_pc (regs m_sbc30) + 1))))
                 (set_pc (u16 (u16 (my_pc (regs m_sbc30) + 1) + 1)) (regs m_sbc30)).
Proof.
  split; [repeat split; vm_compute; reflexivity |].
  apply sbc_is_adc_of_complement; vm_compute; reflexivity.
Defined.

Lemma jsr_then_rts_returns_after_jsr_witness :
  ((0 <= 0x400 < 65536 /\ my_pc (regs m_jsr_inx_rts) = 0x400 /\
    0 <= my_sp (regs m_jsr_inx_rts) < 256 /\ peek m_jsr_inx_rts 0x400 = 0x20) /\
   (let sp := my_sp (regs m_jsr_inx_rts) in
    let ret_addr := (0x400 + 2) mod 65536 in
    let a_hi := 0x100 + sp in
    let a_lo := 0x100 + (sp + 255) mod 256 in
    exists m1,
      my6502_step m_jsr_inx_rts = Ok tt m1 /\
      bus_log m1 =
        bus_log m_jsr_inx_rts ++
          [BusRead 0x400 0x20;
           BusRead ((0x400 + 1) mod 65536) (peek m_jsr_inx_rts (0x400 + 1));
           BusRead ((0x400 + 2) mod 65536) (peek m_jsr_inx_rts (0x400 + 2));
           BusWrite a_hi (ret_addr / 256);
           BusWrite a_lo (ret_addr mod 256)] /\
      (forall m',
         my_sp (regs m') = my_sp (regs m1) ->
         mem m' a_lo = mem m1 a_lo -> mem m' a_hi = mem m1 a_hi ->
         peek m' (my_pc (regs m')) = 0x60 ->
         exists m2,
           my6502_step m' = Ok tt m2 /\
           my_pc (regs m2) = (0x400 + 3) mod 65536 /\ my_sp (regs m2) = sp))) /\
  (exists m1 m' m2,
     my6502_step m_jsr_inx_rts = Ok tt m1 /\ my6502_step m1 = Ok tt m' /\
     my_x (regs m') = 1 /\
     my6502_step m' = Ok tt m2 /\ my_pc (regs m2) = 0x403 /\ my_sp (regs m2) = 0xFD).
Proof.
  assert (T := jsr_then_rts_returns_after_jsr m_jsr_inx_rts 0x400 ltac:(lia)
                 eq_refl ltac:(cbn; lia) ltac:(vm_compute; reflexivity)).
  split.
  - split; [cbn; repeat split; try lia; vm_compute; reflexivity | exact T].
  - cbv zeta in T. destruct T as (m1 & E1 & _ & K).
    destruct (my6502_step m1) as [u m' | f m'] eqn:E2;
      [| vm_compute in E1; injection E1 as <-; vm_compute in E2; discriminate E2].
    assert (E1' := E1). vm_compute in E1'. injection E1' as E1'.
    assert (E2' := E2). rewrite <- E1' in E2'. vm_compute in E2'.
    injection E2' as <- E2'.
    destruct (K m') as (m2 & E3 & Hpc & Hsp);
      [rewrite <- E1', <- E2'; vm_compute; reflexivity
      | rewrite <- E1', <- E2'; vm_compute; reflexivity
      | rewrite <- E1', <- E2'; vm_compute; reflexivity
      | rewrite <- E2'; vm_compute; reflexivity |].
    exists m1, m', m2.
    split; [exact E1 |]. split; [exact E2 |].
    split; [rewrite <- E2'; vm_compute; reflexivity |].
    split; [exact E3 |]. split; [rewrite Hpc; reflexivity | exact Hsp].
Defined.

Lemma branch_changes_only_pc_witness :
  (In 0xF0 branch_opcodes /\ peek m_beq (my_pc (regs m_beq)) = 0xF0) /\
  (let pc1 := u16 (my_pc (regs m_beq) + 1) in
   exists c',
     my6502_step m_beq =
       Ok tt (mk_machine c' (mem m_beq)
                (bus_log m_beq ++ [BusRead (u16 (my_pc (regs m_beq))) 0xF0;
                                   BusRead (u16 pc1) (peek m_beq pc1)])) /\
     my_ac c' = my_ac (regs m_beq) /\ my_x c' = my_x (regs m_beq) /\
     my_y c' = my_y (regs m_beq) /\ my_sp c' = my_sp (regs m_beq) /\
     my_sr c' = my_sr (regs m_beq)).
Proof.
  split; [split; [cbn; tauto | vm_compute; reflexivity] |].
  apply branch_changes_only_pc; [cbn; tauto | vm_compute; reflexivity].
Defined.

Lemma undefined_opcode_aborts_witness :
  ~ In (peek m_op02 (my_pc (regs m_op02))) nmos6502_opcodes /\
  my6502_step m_op02 =
    Abort "my6502_step"
      (mk_machine (set_pc (u16 (my_pc (regs m_op02) + 1)) (regs m_op02))
         (mem m_op02)
         (bus_log m_op02 ++ [BusRead (u16 (my_pc (regs m_op02)))
                               (peek m_op02 (my_pc (regs m_op02)))])).
Proof.
  assert (Hn : ~ In (peek m_op02 (my_pc (regs m_op02))) nmos6502_opcodes).
  { vm_compute. intros H. repeat (destruct H as [H | H]; [discriminate H |]).
    exact H. }
  split; [exact Hn |]. apply undefined_opcode_aborts. exact Hn.
Defined.

(** * Further properties of the core *)

(** ** Flag helpers *)

Lemma update_sr_NZ (v : Z) (c : cpu) (k : Z) :
  0 <= k < 8 ->
  Z.testbit (my_sr (my_update_sr v NZ c)) k =
    if k =? 1 then (u8 v =? 0)
    else if k =? 7 then Z.testbit v 7
    else Z.testbit (my_sr c) k.
Proof.
  intros Hk.
  unfold my_update_sr. cbv zeta.
  change (negb (Z.land NZ SR_FLAG_NEGATIVE =? 0)) with true.
  change (negb (Z.land NZ SR_FLAG_ZERO =? 0)) with true. cbv iota.
  change SR_FLAG_ZERO with (2 ^ 1).
  change SR_FLAG_NEGATIVE with (2 ^ 7). change 0x80 with (2 ^ 7).
  rewrite land_pow2_eqb0, negb_involutive, u8_bit by lia.
  destruct (u8 v =? 0);
    [rewrite sr_set_bit by lia | rewrite sr_clr_bit by lia];
    (destruct (Z.testbit v 7);
      [rewrite sr_set_bit by lia | rewrite sr_clr_bit by lia]);
    (destruct (Z.eqb_spec k 1); [subst; bool_finish |]);
    (destruct (Z.eqb_spec k 7); [subst; bool_finish |]);
    repeat (rewrite (proj2 (Z.eqb_neq _ _)) by lia);
    cbn [negb andb orb]; rewrite ?andb_true_r, ?orb_false_r; reflexivity.
Qed.

(** [my_update_sr] and [my_update_sr_with_carry] change SR only. *)
Lemma update_sr_frame (v : Z) (c : cpu) :
  my_update_sr v NZ c = set_sr (my_sr (my_update_sr v NZ c)) c.
Proof.
  destruct c. unfold my_update_sr, SR_SET, SR_CLR.
  repeat match goal with |- context [if ?b then _ else _] => destruct b end;
    reflexivity.
Qed.

Lemma update_sr_with_carry_frame (v cv : Z) (c : cpu) :
  my_update_sr_with_carry v NZ cv c =
    set_sr (my_sr (my_update_sr_with_carry v NZ cv c)) c.
Proof.
  destruct c. unfold my_update_sr_with_carry, my_update_sr, SR_SET, SR_CLR.
  repeat match goal with |- context [if ?b then _ else _] => destruct b end;
    reflexivity.
Qed.

(** SR values agree when all their bits below 8 agree. *)
Lemma byte_ext (a b : Z) :
  0 <= a < 256 -> 0 <= b < 256 ->
  (forall k, 0 <= k < 8 -> Z.testbit a k = Z.testbit b k) -> a = b.
Proof.
  intros Ha Hb H. apply Z.bits_inj'. intros k Hk.
  destruct (Z.ltb_spec k 8); [apply H; lia |].
  rewrite <- (u8_small a), <- (u8_small b) by lia.
  unfold u8. change 256 with (2 ^ 8).
  rewrite !Z.mod_pow2_bits_high by lia. reflexivity.
Qed.

(** ** Compare instructions *)

Lemma compare_core (r b : Z) (c : cpu) :
  0 <= r < 256 -> 0 <= b < 256 ->
  let c' := my_update_sr_with_carry (r - b) NZ (if b <=? r then 1 else 0) c in
  c' = set_sr (my_sr c') c /\
  Z.testbit (my_sr c') 0 = (b <=? r) /\
  Z.testbit (my_sr c') 1 = (r =? b) /\
  Z.testbit (my_sr c') 7 = Z.testbit (u8 (r - b)) 7 /\
  (forall k, 2 <= k < 7 -> Z.testbit (my_sr c') k = Z.testbit (my_sr c) k).
Proof.
  intros Hr Hb. cbv zeta.
  split; [apply update_sr_with_carry_frame |].
  rewrite !update_sr_with_carry_NZ by lia. cbn [Z.eqb Pos.eqb].
  split; [destruct (b <=? r); reflexivity |].
  split.
  { destruct (Z.eqb_spec r b) as [-> | Hne].
    - rewrite Z.sub_diag. reflexivity.
    - apply Z.eqb_neq. unfold u8. intros Hm.
      apply Z.mod_divide in Hm; [| lia]. destruct Hm as [q Hq]. nia. }
  split; [rewrite u8_bit by lia; reflexivity |].
  intros k Hk.
  rewrite update_sr_with_carry_NZ by lia.
  repeat (rewrite (proj2 (Z.eqb_neq _ _)) by lia). reflexivity.
Qed.

(** CMP, CPX and CPY compare a register [r] with an operand byte [b]:
    C = (r >= b), Z = (r == b), N = bit 7 of (r - b) mod 256; V, D, I, B and
    bit 5 and every register other than SR are left unchanged. *)
Theorem compare_flags (f : Z -> cpu -> cpu) (reg : cpu -> Z) (c : cpu) (b : Z) :
  In (f, reg) [(my_cmp, my_ac); (my_cpx, my_x); (my_cpy, my_y)] ->
  0 <= reg c < 256 -> 0 <= b < 256 ->
  f b c = set_sr (my_sr (f b c)) c /\
  Z.testbit (my_sr (f b c)) 0 = (b <=? reg c) /\
  Z.testbit (my_sr (f b c)) 1 = (reg c =? b) /\
  Z.testbit (my_sr (f b c)) 7 = Z.testbit (u8 (reg c - b)) 7 /\
  (forall k, 2 <= k < 7 -> Z.testbit (my_sr (f b c)) k = Z.testbit (my_sr c) k).
Proof.
  intros Hin Hr Hb.
  destruct Hin as [E | [E | [E | []]]]; injection E as <- <-;
    unfold my_cmp, my_cpx, my_cpy; rewrite (u8_small b) by lia;
    apply compare_core; assumption.
Qed.

(** ** BIT *)

Lemma testbit_lor_pow2 (v j k : Z) :
  0 <= j -> 0 <= k -> Z.testbit (Z.lor v (2 ^ j)) k = Z.testbit v k || (j =? k).
Proof. intros. rewrite Z.lor_spec, Z.pow2_bits_eqb by lia. reflexivity. Qed.

Lemma testbit_clr_pow2 (v j k : Z) :
  0 <= j -> 0 <= k < 8 ->
  Z.testbit (u8 (Z.land v (Z.lnot (2 ^ j)))) k = Z.testbit v k && negb (j =? k).
Proof.
  intros. rewrite u8_bit, Z.land_spec, Z.lnot_spec, Z.pow2_bits_eqb by lia.
  reflexivity.
Qed.

(** BIT with an operand byte [b]: N = bit 7 of [b], V = bit 6 of [b],
    Z = ((AC & b) == 0); the other SR bits and every other register are
    unchanged. *)
Theorem bit_flags (c : cpu) (b : Z) :
  0 <= b < 256 ->
  let c' := my_bit b c in
  c' = set_sr (my_sr c') c /\
  Z.testbit (my_sr c') 7 = Z.testbit b 7 /\
  Z.testbit (my_sr c') 6 = Z.testbit b 6 /\
  Z.testbit (my_sr c') 1 = (Z.land (my_ac c) b =? 0) /\
  (forall k, 0 <= k < 8 -> k <> 1 -> k <> 6 -> k <> 7 ->
     Z.testbit (my_sr c') k = Z.testbit (my_sr c) k).
Proof.
  intros Hb. cbv zeta. unfold my_bit. cbv zeta.
  rewrite (u8_small b) by lia.
  change SR_FLAG_NEGATIVE with (2 ^ 7). change SR_FLAG_OVERFLOW with (2 ^ 6).
  change SR_FLAG_ZERO with (2 ^ 1).
  rewrite !land_pow2_eqb0 by lia.
  destruct c as [pc ac x y sr sp]. cbn [set_sr my_ac my_sr].
  destruct (Z.testbit b 7), (Z.testbit b 6); cbn [negb set_sr my_ac my_sr];
    destruct (Z.land ac b =? 0); cbn [negb];
    (split; [reflexivity |]);
    cbn [my_sr set_sr my_ac];
    rewrite ?testbit_lor_pow2, ?testbit_clr_pow2 by lia;
    (split; [| split; [| split; [| intros k Hk H1 H6 H7]]]).
  all: repeat (first [rewrite testbit_lor_pow2 by lia
                    | rewrite testbit_clr_pow2 by lia]).
  all: repeat (rewrite (proj2 (Z.eqb_neq _ _)) by lia).
  all: cbv [Z.eqb Pos.eqb negb].
  all: rewrite ?orb_true_r, ?andb_false_r, ?orb_false_r, ?andb_true_r; reflexivity.
Qed.

(** ** ADC and SBC *)

Lemma adc_core (c : cpu) (b : Z) :
  0 <= my_ac c < 256 -> 0 <= b < 256 ->
  let a := my_ac c in
  let cin := if Z.testbit (my_sr c) 0 then 1 else 0 in
  let c' := my_adc b c in
  let ac := my_ac c' in
  ac = Z.land (a + b + cin) 0xFF /\
  Z.testbit (my_sr c') 0 = (256 <=? a + b + cin) /\
  Z.testbit (my_sr c') 1 = (ac =? 0) /\
  Z.testbit (my_sr c') 7 = Z.testbit ac 7 /\
  Z.testbit (my_sr c') 6 =
    negb (Z.land (Z.land (Z.lxor a ac) (Z.lxor b ac)) 0x80 =? 0).
Proof.
  intros Ha Hb. cbv zeta.
  unfold my_adc. cbv zeta.
  rewrite (u8_small b) by lia.
  change SR_FLAG_CARRY with (2 ^ 0). rewrite sr_is_set_bit by lia.
  set (cin := if Z.testbit (my_sr c) 0 then 1 else 0).
  assert (Hcin : 0 <= cin <= 1) by (unfold cin; destruct (Z.testbit _ _); lia).
  replace (if Z.testbit (my_sr c) 0 then u16 (u16 (my_ac c + b) + 1)
           else u16 (my_ac c + b)) with (my_ac c + b + cin)
    by (unfold cin; destruct (Z.testbit _ _);
        rewrite ?u16_add_u16, u16_small by lia; lia).
  set (r := my_ac c + b + cin).
  set (c1 := if _ : bool then _ else _).
  rewrite !update_sr_with_carry_ac. cbn [set_ac my_ac].
  rewrite !update_sr_with_carry_NZ by lia.
  cbn [Z.eqb Pos.eqb set_ac my_sr].
  split; [rewrite land_ff_mod; reflexivity |].
  split; [destruct (256 <=? r); reflexivity |].
  split; [rewrite u8_u8; reflexivity |].
  split; [reflexivity |].
  change 0x80 with (2 ^ 7) in *.
  rewrite land_pow2_eqb0 by lia. rewrite negb_involutive.
  rewrite Z.land_spec, !Z.lxor_spec, !u8_bit by lia.
  unfold c1. change SR_FLAG_OVERFLOW with (2 ^ 6).
  rewrite !(land_pow2 _ 7) by lia.
  change (2 ^ 7) with 128.
  destruct (Z.testbit (my_ac c) 7), (Z.testbit b 7), (Z.testbit r 7);
    cbv beta iota delta [Z.eqb Pos.eqb andb negb xorb orb];
    first [rewrite sr_set_bit by lia | rewrite sr_clr_bit by lia];
    cbv beta iota delta [Z.eqb Pos.eqb negb];
    rewrite ?orb_true_r, ?andb_false_r; reflexivity.
Qed.

Lemma u8_lnot_byte (b : Z) : 0 <= b < 256 -> u8 (Z.lnot b) = 255 - b.
Proof.
  intros Hb. unfold u8. rewrite Z.lnot_eq_pred_opp.
  symmetry. apply (Z.mod_unique _ _ (-1)); lia.
Qed.

Lemma bit7_byte (x : Z) : 0 <= x < 256 -> Z.testbit x 7 = (128 <=? x).
Proof.
  intros Hx.
  replace (Z.testbit x 7) with (Z.testbit (Z.shiftr x 7) 0)
    by (rewrite Z.shiftr_spec by lia; reflexivity).
  rewrite Z.bit0_odd, Z.shiftr_div_pow2 by lia. change (2 ^ 7) with 128.
  destruct (Z.leb_spec 128 x).
  - rewrite <- (Z.div_unique x 128 1 (x - 128)) by lia. reflexivity.
  - rewrite Z.div_small by lia. reflexivity.
Qed.

Lemma testbit_255_sub (b : Z) :
  0 <= b < 256 -> Z.testbit (255 - b) 7 = negb (Z.testbit b 7).
Proof.
  intros Hb. rewrite !bit7_byte by lia.
  destruct (Z.leb_spec 128 (255 - b)), (Z.leb_spec 128 b); reflexivity || lia.
Qed.

(** SBC with an operand byte [b] subtracts with borrow (borrow = 1 - C):
    AC = (a - b - borrow) mod 256, C = (a - b - borrow >= 0), Z = (AC == 0),
    N = bit 7 of AC and V = (((a ^ b) & (a ^ AC) & 0x80) != 0). *)
Theorem sbc_result_and_flags (c : cpu) (b : Z) :
  0 <= my_ac c < 256 -> 0 <= b < 256 ->
  let a := my_ac c in
  let borrow := if Z.testbit (my_sr c) 0 then 0 else 1 in
  let c' := my_sbc b c in
  let ac := my_ac c' in
  ac = (a - b - borrow) mod 256 /\
  Z.testbit (my_sr c') 0 = (0 <=? a - b - borrow) /\
  Z.testbit (my_sr c') 1 = (ac =? 0) /\
  Z.testbit (my_sr c') 7 = Z.testbit ac 7 /\
  Z.testbit (my_sr c') 6 =
    negb (Z.land (Z.land (Z.lxor a b) (Z.lxor a ac)) 0x80 =? 0).
Proof.
  intros Ha Hb. unfold my_sbc. rewrite (u8_small b), u8_lnot_byte by lia.
  destruct (adc_core c (255 - b) Ha ltac:(lia)) as [E0 [E1 [E2 [E3 E4]]]].
  cbv zeta in *. rewrite E1, E2, E3, E4.
  split; [| split; [| split; [reflexivity | split; [reflexivity |]]]].
  - rewrite E0, land_ff_mod.
    destruct (Z.testbit (my_sr c) 0).
    + replace (my_ac c + (255 - b) + 1) with ((my_ac c - b - 0) + 1 * 256) by lia.
      apply Z.mod_add. lia.
    + replace (my_ac c + (255 - b) + 0) with ((my_ac c - b - 1) + 1 * 256) by lia.
      apply Z.mod_add. lia.
  - destruct (Z.testbit (my_sr c) 0);
      destruct (Z.leb_spec 256 (my_ac c + (255 - b) + 1)),
               (Z.leb_spec 256 (my_ac c + (255 - b) + 0)),
               (Z.leb_spec 0 (my_ac c - b - 0)), (Z.leb_spec 0 (my_ac c - b - 1));
      reflexivity || lia.
  - change 0x80 with (2 ^ 7).
    rewrite !land_pow2_eqb0 by lia. rewrite !negb_involutive.
    rewrite !Z.land_spec, !Z.lxor_spec, testbit_255_sub by lia.
    destruct (Z.testbit (my_ac c) 7), (Z.testbit b 7),
             (Z.testbit (my_ac (my_adc (255 - b) c)) 7); reflexivity.
Qed.

Lemma testbit_u8_full (v k : Z) :
  0 <= k -> Z.testbit (u8 v) k = (k <? 8) && Z.testbit v k.
Proof.
  intros Hk. destruct (Z.ltb_spec k 8).
  - apply u8_bit. lia.
  - unfold u8. change 256 with (2 ^ 8). apply Z.mod_pow2_bits_high. lia.
Qed.

(** Equality of values built from SR by the SR_* bit operations, bit by
    bit. *)
Ltac sr_bits_eq :=
  apply Z.bits_inj'; intros k Hk;
  change SR_FLAG_NEGATIVE with (2 ^ 7) in *; change SR_FLAG_OVERFLOW with (2 ^ 6) in *;
  change SR_FLAG_UNUSED with (2 ^ 5) in *; change SR_FLAG_BREAK with (2 ^ 4) in *;
  change SR_FLAG_DECIMAL with (2 ^ 3) in *; change SR_FLAG_INTERRUPT with (2 ^ 2) in *;
  change SR_FLAG_ZERO with (2 ^ 1) in *; change SR_FLAG_CARRY with (2 ^ 0) in *;
  repeat first [ rewrite testbit_u8_full by lia | rewrite Z.lor_spec
               | rewrite Z.land_spec | rewrite Z.lnot_spec by lia
               | rewrite Z.pow2_bits_eqb by lia ];
  destruct (Z.ltb_spec k 8) as [Hk8 | Hk8];
  [ assert (Hc : k = 0 \/ k = 1 \/ k = 2 \/ k = 3 \/ k = 4 \/ k = 5 \/ k = 6 \/ k = 7)
      by lia;
    repeat destruct Hc as [-> | Hc]; [..| subst k];
    repeat match goal with |- context [Z.testbit ?a ?b] => destruct (Z.testbit a b) end;
    reflexivity
  | 
    repeat (rewrite (proj2 (Z.eqb_neq _ k)) by lia);
    cbn [andb orb]; rewrite ?andb_false_r; reflexivity ].

Lemma sed_carry (v : Z) :
  Z.land (Z.lor v SR_FLAG_DECIMAL) SR_FLAG_CARRY = Z.land v SR_FLAG_CARRY.
Proof. sr_bits_eq. Qed.

Lemma cld_carry (v : Z) :
  Z.land (u8 (Z.land v (Z.lnot SR_FLAG_DECIMAL))) SR_FLAG_CARRY =
    Z.land v SR_FLAG_CARRY.
Proof. sr_bits_eq. Qed.

(** ADC (and so SBC, which is ADC of the complement) ignores the D flag:
    running it after SED or CLD gives the result of running it first and
    then setting or clearing D.  No decimal arithmetic is done. *)
Theorem adc_ignores_decimal (b : Z) (c : cpu) :
  my_adc b (my_sed c) = my_sed (my_adc b c) /\
  my_adc b (my_cld c) = my_cld (my_adc b c).
Proof.
  destruct c as [pc ac x y sr sp].
  unfold my_adc, my_sed, my_cld, my_update_sr_with_carry, my_update_sr,
    SR_SET, SR_CLR, SR_IS_SET.
  cbv zeta. cbn [set_sr set_ac my_sr my_ac].
  rewrite sed_carry, cld_carry. split;
  repeat match goal with |- context [if ?b then _ else _] => destruct b end;
    cbv beta iota delta [set_sr set_ac my_pc my_ac my_x my_y my_sr my_sp];
    f_equal; sr_bits_eq.
Qed.

(** ** Increment and decrement *)

Lemma u8_inc_dec (v : Z) : 0 <= v < 256 -> u8 (u8 (v + 1) - 1) = v.
Proof. intros. rewrite u8_sub_u8, Z.add_simpl_r, u8_small; lia. Qed.

Lemma update_sr_range (v : Z) (c : cpu) : 0 <= my_sr (my_update_sr v NZ c) < 256.
Proof.
  unfold my_update_sr, SR_SET, SR_CLR.
  change (Z.land NZ SR_FLAG_ZERO =? 0) with false.
  change (Z.land NZ SR_FLAG_NEGATIVE =? 0) with false. cbv beta iota zeta delta [negb].
  repeat match goal with |- context [if ?b then _ else _] => destruct b end;
    apply u8_range.
Qed.

Lemma set_sr_set_sr (s1 s2 : Z) (c : cpu) : set_sr s1 (set_sr s2 c) = set_sr s1 c.
Proof. reflexivity. Qed.

(** A second N/Z update overrides the first. *)
Lemma update_sr_twice (v w : Z) (c : cpu) :
  my_update_sr v NZ (my_update_sr w NZ c) = my_update_sr v NZ c.
Proof.
  rewrite (update_sr_frame v (my_update_sr w NZ c)).
  replace (set_sr _ (my_update_sr w NZ c)) with
    (set_sr (my_sr (my_update_sr v NZ (my_update_sr w NZ c))) c)
    by (rewrite (update_sr_frame w c); reflexivity).
  rewrite (update_sr_frame v c). f_equal.
  apply byte_ext; [apply update_sr_range | apply update_sr_range |].
  intros k Hk. rewrite !update_sr_NZ by lia.
  destruct (k =? 1), (k =? 7); reflexivity.
Qed.

Lemma update_sr_set_x (v w : Z) (c : cpu) :
  my_update_sr v NZ (set_x w c) = set_x w (my_update_sr v NZ c).
Proof.
  unfold my_update_sr, SR_SET, SR_CLR.
  repeat match goal with |- context [if ?b then _ else _] => destruct b end;
    reflexivity.
Qed.

Lemma update_sr_set_y (v w : Z) (c : cpu) :
  my_update_sr v NZ (set_y w c) = set_y w (my_update_sr v NZ c).
Proof.
  unfold my_update_sr, SR_SET, SR_CLR.
  repeat match goal with |- context [if ?b then _ else _] => destruct b end;
    reflexivity.
Qed.

Lemma update_sr_x (v : Z) (c : cpu) : my_x (my_update_sr v NZ c) = my_x c.
Proof. rewrite update_sr_frame. reflexivity. Qed.

Lemma update_sr_y (v : Z) (c : cpu) : my_y (my_update_sr v NZ c) = my_y c.
Proof. rewrite update_sr_frame. reflexivity. Qed.

(** INX then DEX (and INY then DEY) restore the index register, including
    across the 0xFF/0x00 wrap; N and Z then describe its value, and SR's
    other bits and the other registers are unchanged. *)
Theorem inx_dex_iny_dey_roundtrip (c : cpu) :
  0 <= my_x c < 256 -> 0 <= my_y c < 256 ->
  my_dex (my_inx c) = my_update_sr (my_x c) NZ c /\
  my_dey (my_iny c) = my_update_sr (my_y c) NZ c.
Proof.
  intros Hx Hy. unfold my_dex, my_inx, my_dey, my_iny. cbv zeta.
  cbn [my_x my_y set_x set_y].
  rewrite update_sr_x, update_sr_y. cbn [my_x my_y set_x set_y].
  rewrite u8_inc_dec, u8_inc_dec by lia.
  rewrite !update_sr_set_x, !update_sr_set_y, !update_sr_twice.
  rewrite (update_sr_frame (my_x c) c), (update_sr_frame (my_y c) c).
  destruct c; split; reflexivity.
Qed.

(** ** The stack *)

Lemma u8_dec_inc (v : Z) : 0 <= v < 256 -> u8 (u8 (v - 1) + 1) = v.
Proof. intros. rewrite u8_add_u8, Z.sub_add, u8_small; lia. Qed.

(** [my_push] writes its byte at 0x100 + SP, inside page 1 whatever SP is,
    and moves SP down with 8-bit wrap-around; the [my_pop] that follows
    moves SP back, reads the same address and returns the pushed byte. *)
Theorem push_pop_roundtrip (v : Z) (m : machine) :
  0 <= my_sp (regs m) < 256 ->
  let sp := my_sp (regs m) in
  let a := STACK_OFFSET + sp in
  0x100 <= a <= 0x1FF /\
  my_push v m =
    Ok tt (mk_machine (set_sp (u8 (sp - 1)) (regs m))
             (fun x => if x =? a then u8 v else mem m x)
             (bus_log m ++ [BusWrite a (u8 v)])) /\
  (my_push v ;; my_pop) m =
    Ok (u8 v) (mk_machine (regs m)
                 (fun x => if x =? a then u8 v else mem m x)
                 (bus_log m ++ [BusWrite a (u8 v); BusRead a (u8 v)])).
Proof.
  intros Hsp. destruct m as [[pc ac x y sr sp] mm log].
  cbn [regs my_sp] in *. cbv zeta.
  unfold STACK_OFFSET.
  split; [lia |].
  unfold my_pop, my_push. run_m.
  rewrite u8_dec_inc by lia. unfold STACK_OFFSET.
  rewrite (u16_small (256 + sp)) by lia. rewrite Z.eqb_refl, !u8_u8, <- app_assoc.
  split; reflexivity.
Qed.

(** One step on PHA (0x48). *)
Lemma pha_step (m : machine) :
  peek m (my_pc (regs m)) = 0x48 ->
  let c := regs m in
  let a := u16 (STACK_OFFSET + my_sp c) in
  let v := u8 (my_ac c) in
  my6502_step m =
    Ok tt (mk_machine (set_sp (u8 (my_sp c - 1)) (set_pc (u16 (my_pc c + 1)) c))
             (fun x => if x =? a then v else mem m x)
             (bus_log m ++ [BusRead (u16 (my_pc c)) 0x48; BusWrite a v])).
Proof.
  intros H. destruct m as [[pc ac x y sr sp] mm log].
  dispatch_op H. unfold my_pha. run_m.
  rewrite <- app_assoc, u8_u8. reflexivity.
Qed.

(** One step on PLA (0x68). *)
Lemma pla_step (m : machine) :
  peek m (my_pc (regs m)) = 0x68 ->
  let c := regs m in
  let sp1 := u8 (my_sp c + 1) in
  let v := peek m (STACK_OFFSET + sp1) in
  my6502_step m =
    Ok tt (mk_machine
             (my_update_sr v NZ
                (set_ac v (set_sp sp1 (set_pc (u16 (my_pc c + 1)) c))))
             (mem m)
             (bus_log m ++ [BusRead (u16 (my_pc c)) 0x68;
                            BusRead (u16 (STACK_OFFSET + sp1)) v])).
Proof.
  intros H. destruct m as [[pc ac x y sr sp] mm log].
  dispatch_op H. unfold my_pla. run_m.
  rewrite <- app_assoc. reflexivity.
Qed.

(** One step on PLP (0x28). *)
Lemma plp_step (m : machine) :
  peek m (my_pc (regs m)) = 0x28 ->
  let c := regs m in
  let sp1 := u8 (my_sp c + 1) in
  let v := peek m (STACK_OFFSET + sp1) in
  my6502_step m =
    Ok tt (mk_machine
             (set_sr (u8 (Z.lor v SR_FLAG_UNUSED))
                (set_sp sp1 (set_pc (u16 (my_pc c + 1)) c)))
             (mem m)
             (bus_log m ++ [BusRead (u16 (my_pc c)) 0x28;
                            BusRead (u16 (STACK_OFFSET + sp1)) v])).
Proof.
  intros H. destruct m as [[pc ac x y sr sp] mm log].
  dispatch_op H. unfold my_plp. run_m.
  rewrite <- app_assoc. reflexivity.
Qed.

(** PHA then PLA: the pulled byte is the AC that was pushed, SP is back
    where it was, X and Y are untouched, and SR gets the N and Z flags of
    AC; PLA writes no memory. *)
Theorem pha_pla_roundtrip (m : machine) :
  0 <= my_ac (regs m) < 256 -> 0 <= my_sp (regs m) < 256 ->
  peek m (my_pc (regs m)) = 0x48 ->
  exists m1, my6502_step m = Ok tt m1 /\
    (peek m1 (my_pc (regs m1)) = 0x68 ->
     exists m2, my6502_step m1 = Ok tt m2 /\
       regs m2 = my_update_sr (my_ac (regs m)) NZ
                   (set_pc (u16 (u16 (my_pc (regs m) + 1) + 1)) (regs m)) /\
       mem m2 = mem m1).
Proof.
  intros Hac Hsp H. eexists; split; [apply pha_step; exact H |].
  intros H1. eexists; split; [apply pla_step; exact H1 |].
  destruct m as [[pc ac x y sr sp] mm log]. cbn [regs mem my_sp my_ac my_pc] in *.
  split; [| reflexivity].
  unfold set_sp, set_pc, set_ac. cbn [my_sp my_pc my_ac my_x my_y my_sr].
  rewrite u8_dec_inc by lia. unfold peek. cbn [mem].
  rewrite Z.eqb_refl, u8_u8, (u8_small ac) by lia. reflexivity.
Qed.

Lemma php_plp_sr (v : Z) :
  u8 (Z.lor (u8 (Z.lor v SR_FLAG_BREAK)) SR_FLAG_UNUSED) =
    u8 (Z.lor v (Z.lor SR_FLAG_BREAK SR_FLAG_UNUSED)).
Proof. sr_bits_eq. Qed.

(** PHP then PLP: SP is back where it was, and SR comes back with the
    break flag and bit 5 both set ([SR | 0x30]): PHP pushes [SR | B] and
    PLP keeps the B bit it pulls.  AC, X and Y are untouched and PLP
    writes no memory. *)
Theorem php_plp_roundtrip (m : machine) :
  0 <= my_sp (regs m) < 256 ->
  peek m (my_pc (regs m)) = 0x08 ->
  exists m1, my6502_step m = Ok tt m1 /\
    (peek m1 (my_pc (regs m1)) = 0x28 ->
     exists m2, my6502_step m1 = Ok tt m2 /\
       regs m2 = set_sr (u8 (Z.lor (my_sr (regs m))
                                   (Z.lor SR_FLAG_BREAK SR_FLAG_UNUSED)))
                   (set_pc (u16 (u16 (my_pc (regs m) + 1) + 1)) (regs m)) /\
       mem m2 = mem m1).
Proof.
  intros Hsp H. eexists; split; [apply php_step; exact H |].
  intros H1. eexists; split; [apply plp_step; exact H1 |].
  destruct m as [[pc ac x y sr sp] mm log]. cbn [regs mem my_sp my_sr my_pc] in *.
  split; [| reflexivity].
  unfold set_sp, set_pc, set_sr. cbn [my_sp my_pc my_ac my_x my_y my_sr].
  rewrite u8_dec_inc by lia. unfold peek. cbn [mem].
  rewrite Z.eqb_refl, !u8_u8, php_plp_sr. reflexivity.
Qed.

(** One step on BRK (0x00), from a stack pointer that is a byte. *)
Lemma brk_step (m : machine) :
  0 <= my_sp (regs m) < 256 ->
  peek m (my_pc (regs m)) = 0x00 ->
  let c := regs m in
  let sp := my_sp c in
  let ret := u16 (u16 (my_pc c + 1) + 1) in
  let a1 := 256 + sp in
  let a2 := 256 + u8 (sp - 1) in
  let a3 := 256 + u8 (sp - 2) in
  let v1 := u8 (Z.shiftr ret 8) in
  let v2 := u8 ret in
  let v3 := u8 (Z.lor (my_sr c) SR_FLAG_BREAK) in
  let lo := peek m IRQ_OFFSET in
  let hi := peek m (IRQ_OFFSET + 1) in
  my6502_step m =
    Ok tt (mk_machine
             (mk_cpu (u16 (Z.lor lo (Z.shiftl hi 8))) (my_ac c) (my_x c) (my_y c)
                (Z.lor (my_sr c) SR_FLAG_INTERRUPT) (u8 (sp - 3)))
             (fun x => if x =? a3 then v3 else if x =? a2 then v2
                       else if x =? a1 then v1 else mem m x)
             (bus_log m ++ [BusRead (u16 (my_pc c)) 0x00; BusWrite a1 v1;
                            BusWrite a2 v2; BusWrite a3 v3;
                            BusRead 65534 lo; BusRead 65535 hi])).
Proof.
  intros Hsp H. destruct m as [[pc ac x y sr sp] mm log].
  cbn [regs my_sp] in Hsp.
  dispatch_op H. unfold my_brk. run_m.
  repeat rewrite u8_sub_u8.
  replace (sp - 1 - 1) with (sp - 2) by ring.
  replace (sp - 2 - 1) with (sp - 3) by ring.
  unfold STACK_OFFSET, peek. cbn [mem].
  rewrite (u16_small (256 + sp)) by lia.
  rewrite (u16_small (256 + u8 (sp - 1))) by (pose proof (u8_range (sp - 1)); lia).
  rewrite (u16_small (256 + u8 (sp - 2))) by (pose proof (u8_range (sp - 2)); lia).
  change (u16 IRQ_OFFSET) with 65534. change (u16 (IRQ_OFFSET + 1)) with 65535.
  pose proof (u8_range (sp - 1)). pose proof (u8_range (sp - 2)).
  repeat (rewrite (proj2 (Z.eqb_neq _ _)) by lia).
  rewrite !u8_u8, <- !app_assoc. reflexivity.
Qed.

(** One step on RTI (0x40). *)
Lemma rti_step (m : machine) :
  peek m (my_pc (regs m)) = 0x40 ->
  let c := regs m in
  let sp1 := u8 (my_sp c + 1) in
  let sp2 := u8 (sp1 + 1) in
  let sp3 := u8 (sp2 + 1) in
  let s := peek m (STACK_OFFSET + sp1) in
  let lo := peek m (STACK_OFFSET + sp2) in
  let hi := peek m (STACK_OFFSET + sp3) in
  my6502_step m =
    Ok tt (mk_machine
             (mk_cpu (u16 (Z.lor lo (Z.shiftl hi 8))) (my_ac c) (my_x c)
                (my_y c) (u8 (Z.lor s SR_FLAG_BREAK)) sp3)
             (mem m)
             (bus_log m ++ [BusRead (u16 (my_pc c)) 0x40;
                            BusRead (u16 (STACK_OFFSET + sp1)) s;
                            BusRead (u16 (STACK_OFFSET + sp2)) lo;
                            BusRead (u16 (STACK_OFFSET + sp3)) hi])).
Proof.
  intros H. destruct m as [[pc ac x y sr sp] mm log].
  dispatch_op H. unfold my_rti. run_m.
  rewrite <- !app_assoc. reflexivity.
Qed.

Lemma word_split_join (r : Z) :
  0 <= r < 65536 ->
  u16 (Z.lor (u8 r) (Z.shiftl (u8 (Z.shiftr r 8)) 8)) = r.
Proof.
  intros Hr.
  rewrite lor_byte_join by (try apply u8_range; pose proof (u8_range (Z.shiftr r 8)); lia).
  rewrite Z.shiftr_div_pow2 by lia.
  rewrite (u8_small (r / 2 ^ 8))
    by (split; [apply Z.div_pos | apply Z.div_lt_upper_bound]; lia).
  unfold u8. change (2 ^ 8) with 256.
  replace (r mod 256 + r / 256 * 256) with r
    by (pose proof (Z.div_mod r 256 ltac:(lia)); lia).
  apply u16_small. exact Hr.
Qed.

Lemma stack_three_slots (sp : Z) :
  0 <= sp < 256 ->
  u8 (sp - 1) <> u8 (sp - 2) /\ u8 (sp - 1) <> sp /\ u8 (sp - 2) <> sp /\
  u8 (u8 (sp - 3) + 1) = u8 (sp - 2) /\ u8 (u8 (sp - 2) + 1) = u8 (sp - 1) /\
  u8 (u8 (sp - 1) + 1) = sp.
Proof.
  intros Hsp. rewrite !u8_add_u8.
  replace (sp - 3 + 1) with (sp - 2) by ring.
  replace (sp - 2 + 1) with (sp - 1) by ring.
  replace (sp - 1 + 1) with sp by ring.
  rewrite (u8_small sp) by lia.
  unfold u8. repeat split; Z.div_mod_to_equations; lia.
Qed.

Lemma brk_rti_sr (v : Z) :
  u8 (Z.lor (u8 (Z.lor v SR_FLAG_BREAK)) SR_FLAG_BREAK) = u8 (Z.lor v SR_FLAG_BREAK).
Proof. sr_bits_eq. Qed.

(** BRK then RTI: BRK jumps through the vector at 0xFFFE/0xFFFF with the
    interrupt flag set; an RTI executed right there returns to the BRK
    address plus 2 (BRK skips the byte after it), with SP back, AC, X and
    Y untouched and SR back to its value before BRK, except that the break
    flag is now set (the interrupt flag comes back as it was).  RTI writes
    no memory. *)
Theorem brk_rti_roundtrip (m : machine) :
  0 <= my_sp (regs m) < 256 ->
  peek m (my_pc (regs m)) = 0x00 ->
  exists m1, my6502_step m = Ok tt m1 /\
    my_pc (regs m1) = u16 (Z.lor (peek m 0xFFFE) (Z.shiftl (peek m 0xFFFF) 8)) /\
    my_sr (regs m1) = Z.lor (my_sr (regs m)) SR_FLAG_INTERRUPT /\
    (peek m1 (my_pc (regs m1)) = 0x40 ->
     exists m2, my6502_step m1 = Ok tt m2 /\
       regs m2 = set_sr (u8 (Z.lor (my_sr (regs m)) SR_FLAG_BREAK))
                   (set_pc (u16 (my_pc (regs m) + 2)) (regs m)) /\
       mem m2 = mem m1).
Proof.
  intros Hsp H. eexists; split; [apply brk_step; assumption |].
  split; [reflexivity |]. split; [reflexivity |].
  intros H1. eexists; split; [apply rti_step; exact H1 |].
  destruct m as [[pc ac x y sr sp] mm log]. cbn [regs mem my_sp my_sr my_pc] in *.
  split; [| reflexivity].
  destruct (stack_three_slots sp Hsp) as (D12 & D1 & D2 & E3 & E2 & E1).
  cbn [my_sp]. rewrite E3, E2, E1.
  unfold STACK_OFFSET, peek, set_sr, set_pc. cbn [mem my_pc my_ac my_x my_y my_sp].
  rewrite (u16_small (256 + sp)) by lia.
  rewrite (u16_small (256 + u8 (sp - 1))) by (pose proof (u8_range (sp - 1)); lia).
  rewrite (u16_small (256 + u8 (sp - 2))) by (pose proof (u8_range (sp - 2)); lia).
  rewrite !Z.eqb_refl.
  repeat (rewrite (proj2 (Z.eqb_neq _ _)) by lia).
  rewrite !u8_u8, brk_rti_sr.
  rewrite word_split_join by apply u16_range.
  rewrite (u16_add_u16 (pc + 1) 1). replace (pc + 1 + 1) with (pc + 2) by ring.
  reflexivity.
Qed.

(** ** Read-modify-write on the accumulator *)

(** The operand [my_read_op ACCUMULATOR] builds: AC in byte 0, the mode
    code 4 in byte 1. *)
Lemma acc_op_fields (ac : Z) :
  0 <= ac < 256 ->
  u8 (Z.lor (Z.shiftl (my_addr_code ACCUMULATOR) 8) ac) = ac /\
  Z.land (Z.shiftr (Z.lor (Z.shiftl (my_addr_code ACCUMULATOR) 8) ac) 8) 0xFF = 4.
Proof.
  intros Hac. cbn [my_addr_code].
  rewrite Z.lor_comm, lor_byte_join by lia.
  rewrite Z.shiftr_div_pow2 by lia. change (2 ^ 8) with 256.
  rewrite Z.div_add by lia. rewrite Z.div_small by lia.
  split; [| reflexivity].
  unfold u8. rewrite Z.mod_add, Z.mod_small by lia. reflexivity.
Qed.

Lemma acc_rmw_step (m : machine) (op : Z) (f : Z -> M unit) :
  0 <= my_ac (regs m) < 256 ->
  peek m (my_pc (regs m)) = op ->
  lookup_op op my6502_ops = Some (OP_rmw ACCUMULATOR f) ->
  let c := regs m in
  my6502_step m =
    f (Z.lor (Z.shiftl (my_addr_code ACCUMULATOR) 8) (my_ac c))
      (mk_machine (set_pc (u16 (my_pc c + 1)) c) (mem m)
                  (bus_log m ++ [BusRead (u16 (my_pc c)) op])).
Proof.
  intros Hac H L. destruct m as [[pc ac x y sr sp] mm log].
  unfold my6502_step. run_m. run_m_in H. rewrite H, L.
  unfold OP_rmw, my_read_op. run_m. reflexivity.
Qed.

Lemma carry_bit_cases (sr : Z) :
  Z.land sr SR_FLAG_CARRY = if Z.testbit sr 0 then 1 else 0.
Proof. change SR_FLAG_CARRY with (2 ^ 0). apply land_pow2. lia. Qed.

Lemma rol_low_bit (a b : Z) :
  0 <= a -> b = 0 \/ b = 1 -> Z.land (u8 (Z.shiftl a 1 + b)) 1 = b.
Proof.
  intros Ha Hb. rewrite Z.shiftl_mul_pow2 by lia. change (2 ^ 1) with 2.
  change 1 with (Z.ones 1) at 1. rewrite Z.land_ones by lia.
  change (2 ^ 1) with 2. unfold u8.
  destruct Hb; subst; Z.div_mod_to_equations; lia.
Qed.

Lemma rol_ror_value (a b : Z) :
  0 <= a < 256 -> b = 0 \/ b = 1 ->
  u8 (Z.shiftr (u8 (Z.shiftl a 1 + b)) 1 + (if Z.testbit a 7 then 0x80 else 0x00)) = a.
Proof.
  intros Ha Hb. rewrite bit7_byte by lia.
  rewrite Z.shiftl_mul_pow2, Z.shiftr_div_pow2 by lia. change (2 ^ 1) with 2.
  unfold u8. destruct (Z.leb_spec 128 a); Z.div_mod_to_equations; nia.
Qed.

Lemma rol_acc (a : Z) (m : machine) :
  0 <= a < 256 ->
  let c := regs m in
  let v := u8 (Z.shiftl a 1 + Z.land (my_sr c) SR_FLAG_CARRY) in
  my_rol (Z.lor (Z.shiftl (my_addr_code ACCUMULATOR) 8) a) m =
    Ok tt (mk_machine (set_ac v (my_update_sr_with_carry v NZ (Z.land a 0x80) c))
             (mem m) (bus_log m)).
Proof.
  intros Ha. destruct (acc_op_fields a Ha) as [E1 E2].
  destruct m as [c mm log].
  unfold my_rol, my_write_op. run_m. rewrite E1, E2.
  cbn [negb Z.eqb my_addr_code Pos.eqb]. rewrite u8_u8. reflexivity.
Qed.

Lemma ror_acc (a : Z) (m : machine) :
  0 <= a < 256 ->
  let c := regs m in
  let v := u8 (Z.shiftr a 1 + (if SR_IS_SET SR_FLAG_CARRY c then 0x80 else 0x00)) in
  my_ror (Z.lor (Z.shiftl (my_addr_code ACCUMULATOR) 8) a) m =
    Ok tt (mk_machine (set_ac v (my_update_sr_with_carry v NZ (Z.land a 0x01) c))
             (mem m) (bus_log m)).
Proof.
  intros Ha. destruct (acc_op_fields a Ha) as [E1 E2].
  destruct m as [c mm log].
  unfold my_ror, my_write_op. run_m. rewrite E1, E2.
  cbn [negb Z.eqb my_addr_code Pos.eqb]. rewrite u8_u8. reflexivity.
Qed.

Lemma update_sr_with_carry_range (v cv : Z) (c : cpu) :
  0 <= my_sr (my_update_sr_with_carry v NZ cv c) < 256.
Proof.
  unfold my_update_sr_with_carry, SR_SET, SR_CLR.
  destruct (negb (u8 cv =? 0)); apply u8_range.
Qed.

Lemma cpu_ext (c d : cpu) :
  my_pc c = my_pc d -> my_ac c = my_ac d -> my_x c = my_x d -> my_y c = my_y d ->
  my_sr c = my_sr d -> my_sp c = my_sp d -> c = d.
Proof. destruct c, d; cbn; intros; subst; reflexivity. Qed.

Lemma uwc_pc (v cv : Z) (c : cpu) : my_pc (my_update_sr_with_carry v NZ cv c) = my_pc c.
Proof. rewrite update_sr_with_carry_frame. reflexivity. Qed.
Lemma uwc_ac (v cv : Z) (c : cpu) : my_ac (my_update_sr_with_carry v NZ cv c) = my_ac c.
Proof. rewrite update_sr_with_carry_frame. reflexivity. Qed.
Lemma uwc_x (v cv : Z) (c : cpu) : my_x (my_update_sr_with_carry v NZ cv c) = my_x c.
Proof. rewrite update_sr_with_carry_frame. reflexivity. Qed.
Lemma uwc_y (v cv : Z) (c : cpu) : my_y (my_update_sr_with_carry v NZ cv c) = my_y c.
Proof. rewrite update_sr_with_carry_frame. reflexivity. Qed.
Lemma uwc_sp (v cv : Z) (c : cpu) : my_sp (my_update_sr_with_carry v NZ cv c) = my_sp c.
Proof. rewrite update_sr_with_carry_frame. reflexivity. Qed.
Lemma usr_pc (v : Z) (c : cpu) : my_pc (my_update_sr v NZ c) = my_pc c.
Proof. rewrite update_sr_frame. reflexivity. Qed.
Lemma usr_ac (v : Z) (c : cpu) : my_ac (my_update_sr v NZ c) = my_ac c.
Proof. rewrite update_sr_frame. reflexivity. Qed.
Lemma usr_sp (v : Z) (c : cpu) : my_sp (my_update_sr v NZ c) = my_sp c.
Proof. rewrite update_sr_frame. reflexivity. Qed.

Lemma rol_carry_out (v a p w : Z) (c : cpu) :
  SR_IS_SET SR_FLAG_CARRY
    (set_pc p (set_ac w (my_update_sr_with_carry v NZ (Z.land a 0x80) c))) =
  Z.testbit a 7.
Proof.
  change SR_FLAG_CARRY with (2 ^ 0). rewrite sr_is_set_bit by lia.
  cbn [my_sr set_pc set_ac]. rewrite update_sr_with_carry_NZ by lia.
  cbn [Z.eqb]. change 0x80 with (2 ^ 7). rewrite land_pow2 by lia.
  destruct (Z.testbit a 7); reflexivity.
Qed.

(** ROL A then ROR A give back AC, whatever its value and whatever the
    carry: the bit ROL shifts out goes to C and ROR shifts it back in, and
    the old C that ROL shifted into bit 0 comes back out into C.  The net
    effect is PC advanced by 2 and N and Z set from AC; no memory write. *)
Theorem rol_ror_acc_roundtrip (m : machine) :
  0 <= my_ac (regs m) < 256 ->
  peek m (my_pc (regs m)) = 0x2A ->
  exists m1, my6502_step m = Ok tt m1 /\
    (peek m1 (my_pc (regs m1)) = 0x6A ->
     exists m2, my6502_step m1 = Ok tt m2 /\
       regs m2 = my_update_sr (my_ac (regs m)) NZ
                   (set_pc (u16 (u16 (my_pc (regs m) + 1) + 1)) (regs m)) /\
       mem m2 = mem m /\
       bus_log m2 = bus_log m ++ [BusRead (u16 (my_pc (regs m))) 0x2A;
                                  BusRead (u16 (u16 (my_pc (regs m) + 1))) 0x6A]).
Proof.
  intros Hac H.
  assert (L1 : lookup_op 0x2A my6502_ops = Some (OP_rmw ACCUMULATOR my_rol))
    by reflexivity.
  assert (L2 : lookup_op 0x6A my6502_ops = Some (OP_rmw ACCUMULATOR my_ror))
    by reflexivity.
  rewrite (acc_rmw_step m _ _ Hac H L1), rol_acc by exact Hac.
  eexists; split; [reflexivity |]. intros H1.
  destruct m as [[pc ac x y sr sp] mm log]. cbn [regs mem bus_log my_ac my_pc my_sr] in *.
  match type of H1 with peek ?m1 _ = _ =>
    assert (Hv : 0 <= my_ac (regs m1) < 256) by (cbn; apply u8_range) end.
  rewrite (acc_rmw_step _ _ _ Hv H1 L2). cbn [regs mem bus_log my_ac set_ac].
  rewrite ror_acc by apply u8_range.
  eexists; split; [reflexivity |]. cbn [regs mem bus_log].
  split; [| split; [reflexivity |]].
  2: { rewrite <- app_assoc. cbn [my_pc set_ac]. rewrite uwc_pc. reflexivity. }
  cbv zeta.
  assert (Hb : Z.land sr SR_FLAG_CARRY = 0 \/ Z.land sr SR_FLAG_CARRY = 1)
    by (rewrite carry_bit_cases; destruct (Z.testbit sr 0); auto).
  rewrite rol_carry_out. cbn [set_pc my_sr]. rewrite (rol_ror_value ac _ Hac Hb).
  apply cpu_ext; cbn [my_pc my_ac my_x my_y my_sr my_sp set_ac set_pc];
    repeat first [ rewrite uwc_pc | rewrite uwc_ac | rewrite uwc_x | rewrite uwc_y
                 | rewrite uwc_sp | rewrite usr_pc | rewrite usr_ac | rewrite usr_sp
                 | rewrite update_sr_x | rewrite update_sr_y
                 | progress cbn [my_pc my_ac my_x my_y my_sp set_ac set_pc] ];
    try reflexivity.
  apply byte_ext; [apply update_sr_with_carry_range | apply update_sr_range |].
  intros k Hk. rewrite update_sr_with_carry_NZ, update_sr_NZ by lia.
  cbn [my_sr set_pc set_ac]. rewrite update_sr_with_carry_NZ by lia.
  cbn [my_sr set_pc].
  destruct (Z.eqb_spec k 0) as [-> | ];
    [| destruct (Z.eqb_spec k 1), (Z.eqb_spec k 7); reflexivity].
  rewrite rol_low_bit by lia. rewrite carry_bit_cases.
  destruct (Z.testbit sr 0); reflexivity.
Qed.

(** ** Memory increment and decrement *)

(** INC then DEC on the same address put the byte back: the address
    holds the byte it held (as the core reads it, 8 bits), N and Z
    describe that byte, nothing else changes, and the bus sees one read and
    one write per instruction, all at the address masked to 16 bits. *)
Theorem inc_dec_roundtrip (a : Z) (m : machine) :
  let v := peek m a in
  exists m2, bind (my_inc a) (fun _ => my_dec a) m = Ok tt m2 /\
    regs m2 = my_update_sr v NZ (regs m) /\
    (forall x, mem m2 x = if x =? u16 a then v else mem m x) /\
    bus_log m2 = bus_log m ++ [BusRead (u16 a) v; BusWrite (u16 a) (u8 (v + 1));
                               BusRead (u16 a) (u8 (v + 1)); BusWrite (u16 a) v].
Proof.
  cbv zeta. destruct m as [c mm log].
  unfold my_inc, my_dec. run_m. unfold peek. cbn [mem regs bus_log].
  rewrite Z.eqb_refl, !u8_u8.
  rewrite u8_inc_dec by apply u8_range.
  eexists; split; [reflexivity |]. cbn [regs mem bus_log].
  split; [rewrite update_sr_twice; reflexivity |].
  split.
  - intros x0. destruct (x0 =? u16 a); reflexivity.
  - rewrite <- !app_assoc. reflexivity.
Qed.

(** ** Flag instructions *)

Lemma lor_u8 (a b : Z) : Z.lor (u8 a) (u8 b) = u8 (Z.lor a b).
Proof.
  apply Z.bits_inj'. intros k Hk.
  rewrite Z.lor_spec, !testbit_u8_full, Z.lor_spec by lia.
  destruct (k <? 8); reflexivity.
Qed.

Lemma lor_byte (a b : Z) : 0 <= a < 256 -> 0 <= b < 256 -> 0 <= Z.lor a b < 256.
Proof.
  intros Ha Hb. rewrite <- (u8_small a), <- (u8_small b) by lia.
  rewrite lor_u8. apply u8_range.
Qed.

(** CLC, SEC, CLI, SEI, CLV, CLD and SED each change only their own bit
    of SR (C = bit 0, I = bit 2, D = bit 3, V = bit 6), clearing or setting
    it, and leave the other registers and the other bits of SR alone; SR
    stays a byte. *)
Theorem flag_instructions (f : cpu -> cpu) (j : Z) (b : bool) (c : cpu) :
  In (f, j, b) [(my_clc, 0, false); (my_sec, 0, true); (my_cli, 2, false);
                (my_sei, 2, true); (my_clv, 6, false); (my_cld, 3, false);
                (my_sed, 3, true)] ->
  f c = set_sr (my_sr (f c)) c /\
  (forall k, 0 <= k < 8 ->
     Z.testbit (my_sr (f c)) k = if k =? j then b else Z.testbit (my_sr c) k) /\
  (0 <= my_sr c < 256 -> 0 <= my_sr (f c) < 256).
Proof.
  intros Hin.
  assert (Hclr : forall j', 0 <= j' < 8 -> j' = j -> b = false ->
            f c = set_sr (u8 (Z.land (my_sr c) (Z.lnot (2 ^ j')))) c ->
            f c = set_sr (my_sr (f c)) c /\
            (forall k, 0 <= k < 8 ->
               Z.testbit (my_sr (f c)) k = if k =? j then b else Z.testbit (my_sr c) k) /\
            (0 <= my_sr c < 256 -> 0 <= my_sr (f c) < 256)).
  { intros j' Hj' <- -> E. rewrite E. cbn [set_sr my_sr]. split; [reflexivity |].
    split; [| intros; apply u8_range].
    intros k Hk. rewrite testbit_clr_pow2 by lia.
    destruct (Z.eqb_spec j' k), (Z.eqb_spec k j'); subst; try lia;
      cbn [negb]; rewrite ?andb_false_r, ?andb_true_r; reflexivity. }
  assert (Hset : forall j', 0 <= j' < 8 -> j' = j -> b = true ->
            f c = set_sr (Z.lor (my_sr c) (2 ^ j')) c ->
            f c = set_sr (my_sr (f c)) c /\
            (forall k, 0 <= k < 8 ->
               Z.testbit (my_sr (f c)) k = if k =? j then b else Z.testbit (my_sr c) k) /\
            (0 <= my_sr c < 256 -> 0 <= my_sr (f c) < 256)).
  { intros j' Hj' <- -> E. rewrite E. cbn [set_sr my_sr]. split; [reflexivity |].
    split.
    - intros k Hk. rewrite testbit_lor_pow2 by lia.
      destruct (Z.eqb_spec j' k), (Z.eqb_spec k j'); subst; try lia;
        rewrite ?orb_true_r, ?orb_false_r; reflexivity.
    - intros Hs. apply lor_byte; [exact Hs |].
      split; [apply Z.pow_nonneg; lia |].
      apply (Z.pow_lt_mono_r 2 j' 8); lia. }
  cbn [In] in Hin.
  repeat destruct Hin as [Hin | Hin]; try contradiction; injection Hin as <- <- <-.
  - apply (Hclr 0); [lia | reflexivity | reflexivity | reflexivity].
  - apply (Hset 0); [lia | reflexivity | reflexivity | reflexivity].
  - apply (Hclr 2); [lia | reflexivity | reflexivity | reflexivity].
  - apply (Hset 2); [lia | reflexivity | reflexivity | reflexivity].
  - apply (Hclr 6); [lia | reflexivity | reflexivity | reflexivity].
  - apply (Hclr 3); [lia | reflexivity | reflexivity | reflexivity].
  - apply (Hset 3); [lia | reflexivity | reflexivity | reflexivity].
Qed.

(** ** Addressing modes *)

(** INDIRECT (JMP ($nnnn)): the operand bytes at PC+1 and PC+2 give a
    pointer [p]; the target's low byte is read at [p] and its high byte at
    [p + 1] modulo 0x10000, so a pointer ending in 0xFF takes its high
    byte from the next page.  Memory is not written. *)
Theorem read_addr_indirect (m : machine) :
  let c := regs m in
  let pc := my_pc c in
  let lo := peek m pc in
  let hi := peek m (pc + 1) in
  let p := u16 (Z.lor lo (Z.shiftl hi 8)) in
  let tlo := peek m p in
  let thi := peek m (p + 1) in
  my_read_addr INDIRECT m =
    Ok (u16 (Z.lor tlo (Z.shiftl thi 8)))
       (mk_machine (set_pc (u16 (pc + 2)) c) (mem m)
          (bus_log m ++ [BusRead (u16 pc) lo; BusRead (u16 (pc + 1)) hi;
                         BusRead p tlo; BusRead (u16 (p + 1)) thi])).
Proof.
  destruct m as [[pc ac x y sr sp] mm log]. cbv zeta.
  unfold my_read_addr, my_read_addr_from_mem_pc, my_read_addr_from_mem. run_m.
  unfold peek. cbn [mem].
  rewrite !u16_u16, !u16_add_u16. replace (pc + 1 + 1) with (pc + 2) by ring.
  rewrite <- !app_assoc. reflexivity.
Qed.

(** INDIRECT_X ((zp,X)): the zero-page pointer [(b + X) & 0xFF] wraps
    inside page 0, but the high byte of the target is read at pointer + 1
    without that wrap, so the pointer 0xFF takes its high byte from
    0x0100.  One operand byte is fetched; memory is not written. *)
Theorem read_addr_indirect_x (m : machine) :
  0 <= my_x (regs m) ->
  let c := regs m in
  let pc := my_pc c in
  let b := peek m pc in
  let p := Z.land (b + my_x c) 0xFF in
  let tlo := peek m p in
  let thi := peek m (p + 1) in
  0 <= p < 256 /\
  my_read_addr INDIRECT_X m =
    Ok (u16 (Z.lor tlo (Z.shiftl thi 8)))
       (mk_machine (set_pc (u16 (pc + 1)) c) (mem m)
          (bus_log m ++ [BusRead (u16 pc) b; BusRead p tlo;
                         BusRead (p + 1) thi])).
Proof.
  intros Hx. destruct m as [[pc ac x y sr sp] mm log]. cbv zeta.
  cbn [regs my_x my_pc] in *.
  assert (Hp : 0 <= Z.land (peek {| regs := {| my_pc := pc; my_ac := ac; my_x := x;
             my_y := y; my_sr := sr; my_sp := sp |}; mem := mm; bus_log := log |} pc
             + x) 0xFF < 256).
  { change 0xFF with (Z.ones 8). rewrite Z.land_ones by lia.
    apply Z.mod_pos_bound. lia. }
  split; [exact Hp |].
  unfold my_read_addr, my_read_addr_from_mem. run_m.
  unfold peek in *. cbn [mem] in *.
  set (p := Z.land (u8 (mm (u16 pc)) + x) 255) in *.
  rewrite !u16_u16, (u16_small p), (u16_small (p + 1)) by lia.
  rewrite <- !app_assoc. reflexivity.
Qed.

(** INDIRECT_Y ((zp),Y): the pointer's low byte is read at the operand
    [b] and its high byte at [b + 1] (0x0100 for b = 0xFF: no zero-page
    wrap); Y is added to the 16-bit base modulo 0x10000. *)
Theorem read_addr_indirect_y (m : machine) :
  let c := regs m in
  let pc := my_pc c in
  let b := peek m pc in
  let blo := peek m b in
  let bhi := peek m (b + 1) in
  let base := u16 (Z.lor blo (Z.shiftl bhi 8)) in
  my_read_addr INDIRECT_Y m =
    Ok (u16 (base + my_y c))
       (mk_machine (set_pc (u16 (pc + 1)) c) (mem m)
          (bus_log m ++ [BusRead (u16 pc) b; BusRead b blo;
                         BusRead (b + 1) bhi])).
Proof.
  destruct m as [[pc ac x y sr sp] mm log]. cbv zeta.
  unfold my_read_addr, my_read_addr_from_mem. run_m.
  unfold peek. cbn [mem].
  pose proof (u8_range (mm (u16 pc))).
  set (b := u8 (mm (u16 pc))) in *.
  rewrite !u16_u16, (u16_small b), (u16_small (b + 1)) by lia.
  rewrite <- !app_assoc. reflexivity.
Qed.

(** ABSOLUTE_X and ABSOLUTE_Y: the 16-bit operand plus the index register,
    modulo 0x10000 (0xFFFF + 1 addresses 0x0000). *)
Theorem read_addr_absolute_indexed (m : machine) :
  let c := regs m in
  let pc := my_pc c in
  let lo := peek m pc in
  let hi := peek m (pc + 1) in
  let base := u16 (Z.lor lo (Z.shiftl hi 8)) in
  let m' := mk_machine (set_pc (u16 (pc + 2)) c) (mem m)
              (bus_log m ++ [BusRead (u16 pc) lo; BusRead (u16 (pc + 1)) hi]) in
  my_read_addr ABSOLUTE_X m = Ok (u16 (base + my_x c)) m' /\
  my_read_addr ABSOLUTE_Y m = Ok (u16 (base + my_y c)) m'.
Proof.
  destruct m as [[pc ac x y sr sp] mm log]. cbv zeta.
  unfold my_read_addr, my_read_addr_from_mem_pc. run_m.
  unfold peek. cbn [mem].
  rewrite !u16_u16, !u16_add_u16. replace (pc + 1 + 1) with (pc + 2) by ring.
  rewrite <- !app_assoc. split; reflexivity.
Qed.

(** RELATIVE: the offset byte is sign-extended ([(int8_t)]) and added to
    the address of the next instruction, modulo 0x10000: offsets 0x80 to
    0xFF go back by 128 to 1 bytes. *)
Theorem read_addr_relative (m : machine) :
  let c := regs m in
  let pc := my_pc c in
  let off := peek m pc in
  my_read_addr RELATIVE m =
    Ok (u16 (u16 (pc + 1) + (if off <? 128 then off else off - 256)))
       (mk_machine (set_pc (u16 (pc + 1)) c) (mem m)
          (bus_log m ++ [BusRead (u16 pc) off])) /\
  -128 <= (if off <? 128 then off else off - 256) < 128.
Proof.
  destruct m as [[pc ac x y sr sp] mm log]. cbv zeta.
  unfold my_read_addr, sext8. run_m. unfold peek. cbn [mem].
  split; [reflexivity |].
  pose proof (u8_range (mm (u16 pc))).
  destruct (Z.ltb_spec (u8 (mm (u16 pc))) 128); lia.
Qed.

(** ** Packed operands *)

Lemma my_addr_code_range (mode : my_addr) : 0 <= my_addr_code mode < 256.
Proof. destruct mode; cbn; lia. Qed.

Lemma pack_op_arith (addr : Z) (mode : my_addr) (v : Z) :
  0 <= addr -> 0 <= v < 256 ->
  pack_op addr mode v = v + (my_addr_code mode + addr * 256) * 256.
Proof.
  intros Ha Hv. pose proof (my_addr_code_range mode).
  unfold pack_op.
  replace (Z.shiftl addr 16) with (Z.shiftl (Z.shiftl addr 8) 8)
    by (rewrite Z.shiftl_shiftl by lia; reflexivity).
  rewrite <- Z.shiftl_lor, (Z.lor_comm (Z.shiftl addr 8)), lor_byte_join by lia.
  rewrite Z.lor_comm, lor_byte_join by nia. reflexivity.
Qed.

(** The packed operand of [my_read_op] decodes back into its parts: the
    value in the low byte, the mode code in the next byte and the 16-bit
    address above; so [my_write_op], which the read-modify-write
    instructions call on that operand, writes to the very address the
    operand was read from whenever the mode is not ACCUMULATOR. *)
Theorem pack_op_roundtrip (addr : Z) (mode : my_addr) (v w : Z) :
  0 <= addr < 65536 -> 0 <= v < 256 ->
  u8 (pack_op addr mode v) = v /\
  Z.land (Z.shiftr (pack_op addr mode v) 8) 0xFF = my_addr_code mode /\
  u16 (Z.shiftr (pack_op addr mode v) 16) = addr /\
  (mode <> ACCUMULATOR -> my_write_op (pack_op addr mode v) w = my6502_write addr w).
Proof.
  intros Ha Hv. pose proof (my_addr_code_range mode).
  assert (E8 : Z.land (Z.shiftr (pack_op addr mode v) 8) 0xFF = my_addr_code mode).
  { rewrite pack_op_arith, Z.shiftr_div_pow2 by lia. change (2 ^ 8) with 256.
    rewrite Z.div_add, Z.div_small, Z.add_0_l by lia.
    change 0xFF with (Z.ones 8). rewrite Z.land_ones by lia. change (2 ^ 8) with 256.
    rewrite Z.mod_add, Z.mod_small by lia. reflexivity. }
  assert (E16 : u16 (Z.shiftr (pack_op addr mode v) 16) = addr).
  { rewrite pack_op_arith, Z.shiftr_div_pow2 by lia. change (2 ^ 16) with 65536.
    replace (v + (my_addr_code mode + addr * 256) * 256)
      with ((v + my_addr_code mode * 256) + addr * 65536) by ring.
    rewrite Z.div_add, Z.div_small, Z.add_0_l by lia. apply u16_small. lia. }
  split; [rewrite u8_pack_op; apply u8_small; lia |].
  split; [exact E8 |]. split; [exact E16 |].
  intros Hm. unfold my_write_op. rewrite E8, E16.
  destruct mode; try (exfalso; apply Hm; reflexivity); reflexivity.
Qed.

(** ** Documented opcodes run to completion *)

Lemma na_ret {A} (a : A) : never_aborts (ret a).
Proof. intros m. exists a, m. reflexivity. Qed.

Lemma na_bind {A B} (c : M A) (k : A -> M B) :
  never_aborts c -> (forall a, never_aborts (k a)) -> never_aborts (bind c k).
Proof.
  intros Hc Hk m. destruct (Hc m) as (a & m' & E).
  unfold bind. rewrite E. apply Hk.
Qed.

Lemma na_get_cpu : never_aborts get_cpu.
Proof. intros m. eexists _, _. reflexivity. Qed.

Lemma na_modify (f : cpu -> cpu) : never_aborts (modify f).
Proof. intros m. eexists _, _. reflexivity. Qed.

Lemma na_read (a : Z) : never_aborts (my6502_read a).
Proof. intros m. eexists _, _. reflexivity. Qed.

Lemma na_write (a v : Z) : never_aborts (my6502_write a v).
Proof. intros m. eexists _, _. reflexivity. Qed.

Ltac na_solve :=
  repeat lazymatch goal with
  | |- never_aborts (bind _ _) => apply na_bind; [| intro]
  | |- never_aborts (ret _) => apply na_ret
  | |- never_aborts get_cpu => apply na_get_cpu
  | |- never_aborts (modify _) => apply na_modify
  | |- never_aborts (my6502_read _) => apply na_read
  | |- never_aborts (my6502_write _ _) => apply na_write
  | |- never_aborts (if ?b then _ else _) => destruct b
  | |- never_aborts (let _ := _ in _) => cbv zeta
  | |- never_aborts _ =>
      progress unfold fetch_pc, my_push, my_pop, my_read_addr_from_mem_pc,
        my_read_addr_from_mem, OP_value, OP_rmw, OP_addr, OP_jump, my_brk,
        my_jsr, my_rti, my_rts, my_pha, my_php, my_pla, my_plp, my_asl, my_lsr,
        my_rol, my_ror, my_inc, my_dec, my_sta, my_stx, my_sty, my_write_op
  end.

Lemma na_read_addr (mode : my_addr) :
  mode <> IMMEDIATE -> mode <> ACCUMULATOR -> never_aborts (my_read_addr mode).
Proof.
  intros H1 H2. destruct mode; try congruence; unfold my_read_addr; na_solve.
Qed.

Lemma na_read_op (mode : my_addr) :
  mode <> RELATIVE -> mode <> INDIRECT -> never_aborts (my_read_op mode).
Proof.
  intros H1 H2. destruct mode; try congruence; unfold my_read_op; na_solve;
    apply na_read_addr; discriminate.
Qed.

Lemma my6502_ops_never_abort : Forall (fun p => never_aborts (snd p)) my6502_ops.
Proof.
  unfold my6502_ops.
  repeat (apply Forall_cons; [cbn [snd]; na_solve;
    first [ apply na_read_addr; discriminate | apply na_read_op; discriminate ] |]).
  apply Forall_nil.
Qed.

Lemma lookup_op_in (op : Z) (t : list (Z * M unit)) (a : M unit) :
  lookup_op op t = Some a -> In (op, a) t.
Proof.
  induction t as [| [k act] t IH]; cbn; [discriminate |].
  destruct (Z.eqb_spec k op) as [-> |]; [injection 1 as ->; auto | auto].
Qed.

Lemma lookup_op_some (op : Z) (t : list (Z * M unit)) :
  In op (map fst t) -> exists a, lookup_op op t = Some a.
Proof.
  induction t as [| [k act] t IH]; cbn; [contradiction |].
  intros [-> | H]; [rewrite Z.eqb_refl; eauto |].
  destruct (k =? op); eauto.
Qed.

Lemma nmos6502_opcodes_in_table (op : Z) :
  In op nmos6502_opcodes -> In op (map fst my6502_ops).
Proof.
  intros H.
  assert (T : forallb (fun o => existsb (Z.eqb o) (map fst my6502_ops))
                nmos6502_opcodes = true) by (vm_compute; reflexivity).
  rewrite forallb_forall in T. specialize (T op H).
  apply existsb_exists in T as (o & Ho & E). apply Z.eqb_eq in E. subst o. exact Ho.
Qed.

(** Every opcode of the NMOS 6502 instruction set has an entry in the
    dispatch of [my6502_step], and that entry runs to completion from any
    state: the step never reaches [assert(0)] on a documented opcode
    (none of the addressing helpers' aborting modes is ever used). *)
Theorem documented_opcode_never_aborts (m : machine) :
  In (peek m (my_pc (regs m))) nmos6502_opcodes ->
  exists m', my6502_step m = Ok tt m'.
Proof.
  intros H. apply nmos6502_opcodes_in_table, lookup_op_some in H as [act L].
  pose proof (lookup_op_in _ _ _ L) as Hin.
  pose proof (proj1 (Forall_forall _ _) my6502_ops_never_abort _ Hin) as Hna.
  cbn [snd] in Hna.
  destruct m as [c mm log]. unfold my6502_step. run_m. run_m_in L. rewrite L.
  destruct (Hna (mk_machine (set_pc (u16 (my_pc c + 1)) c) mm
                  (log ++ [BusRead (u16 (my_pc c)) (u8 (mm (u16 (my_pc c))))])))
    as ([] & m' & E).
  exists m'. exact E.
Qed.

(** ** Stores *)

(** [my_read_addr] only moves PC and reads: it leaves the other registers
    and memory alone, and the address it returns is a 16-bit value. *)
Lemma read_addr_frame (mode : my_addr) (m m' : machine) (a : Z) :
  my_read_addr mode m = Ok a m' ->
  regs m' = set_pc (my_pc (regs m')) (regs m) /\ mem m' = mem m /\ 0 <= a < 65536.
Proof.
  destruct m as [[pc ac x y sr sp] mm log].
  destruct mode; unfold my_read_addr, my_read_addr_from_mem_pc, my_read_addr_from_mem;
    run_m; unfold assert0; intros E; try discriminate;
    injection E as <- <-; cbn [regs mem my_pc];
    (split; [reflexivity | split; [reflexivity |]]);
    first [ apply u16_range
          | pose proof (u8_range (mm (u16 pc))); lia
          | change 0xFF with (Z.ones 8); rewrite Z.land_ones by lia;
            pose proof (Z.mod_pos_bound (u8 (mm (u16 pc)) + x) (2 ^ 8)); lia
          | change 0xFF with (Z.ones 8); rewrite Z.land_ones by lia;
            pose proof (Z.mod_pos_bound (u8 (mm (u16 pc)) + y) (2 ^ 8)); lia ].
Qed.

Lemma op_addr_step (m : machine) (op : Z) (mode : my_addr) (f : Z -> M unit) :
  peek m (my_pc (regs m)) = op ->
  lookup_op op my6502_ops = Some (OP_addr mode f) ->
  let c := regs m in
  my6502_step m =
    bind (my_read_addr mode) f
      (mk_machine (set_pc (u16 (my_pc c + 1)) c) (mem m)
                  (bus_log m ++ [BusRead (u16 (my_pc c)) op])).
Proof.
  intros H L. destruct m as [[pc ac x y sr sp] mm log].
  unfold my6502_step. run_m. run_m_in H. rewrite H, L. reflexivity.
Qed.

(** The store instructions (STA, STX, STY in all their addressing modes)
    write the stored register's byte at one 16-bit address and change no
    other memory; the only register they change is PC. *)
Theorem store_writes_one_byte (m : machine) (op : Z) (mode : my_addr)
    (st : Z -> M unit) (reg : cpu -> Z) :
  In (op, mode, st, reg)
    [(0x81, INDIRECT_X, my_sta, my_ac); (0x84, ZEROPAGE, my_sty, my_y);
     (0x85, ZEROPAGE, my_sta, my_ac); (0x86, ZEROPAGE, my_stx, my_x);
     (0x8C, ABSOLUTE, my_sty, my_y); (0x8D, ABSOLUTE, my_sta, my_ac);
     (0x8E, ABSOLUTE, my_stx, my_x); (0x91, INDIRECT_Y, my_sta, my_ac);
     (0x94, ZEROPAGE_X, my_sty, my_y); (0x95, ZEROPAGE_X, my_sta, my_ac);
     (0x96, ZEROPAGE_Y, my_stx, my_x); (0x99, ABSOLUTE_Y, my_sta, my_ac);
     (0x9D, ABSOLUTE_X, my_sta, my_ac)] ->
  peek m (my_pc (regs m)) = op ->
  exists a m', my6502_step m = Ok tt m' /\
    0 <= a < 65536 /\
    regs m' = set_pc (my_pc (regs m')) (regs m) /\
    (forall x, mem m' x = if x =? a then u8 (reg (regs m)) else mem m x).
Proof.
  intros Hin H.
  assert (Hst : lookup_op op my6502_ops = Some (OP_addr mode st) /\
                mode <> IMMEDIATE /\ mode <> ACCUMULATOR /\
                (forall a, st a = (c <- get_cpu ;; my6502_write a (reg c))) /\
                (forall c p, reg (set_pc p c) = reg c)).
  { cbn [In] in Hin.
    repeat destruct Hin as [Hin | Hin]; try contradiction;
      injection Hin as <- <- <- <-;
      (split; [reflexivity | split; [discriminate | split; [discriminate |
       split; [reflexivity | reflexivity]]]]). }
  destruct Hst as (L & Hm1 & Hm2 & Est & Ereg).
  rewrite (op_addr_step m op mode st H L).
  set (m1 := mk_machine _ _ _).
  destruct (na_read_addr mode Hm1 Hm2 m1) as (a & m2 & E).
  destruct (read_addr_frame mode m1 m2 a E) as (R & Mm & Ha).
  unfold bind. rewrite E, Est.
  eexists a, _. split; [reflexivity |]. split; [exact Ha |].
  cbn [regs mem get_cpu my6502_write]. unfold get_cpu, my6502_write; cbn [regs mem].
  rewrite R. cbn [regs m1]. split; [reflexivity |].
  intros x0. rewrite Mm, (u16_small a) by exact Ha. cbn [m1 mem].
  rewrite !Ereg. reflexivity.
Qed.

(** ** Register widths *)

Lemma land_u8 (a b : Z) : Z.land a (u8 b) = u8 (Z.land a b).
Proof.
  apply Z.bits_inj'. intros k Hk.
  rewrite Z.land_spec, !testbit_u8_full, Z.land_spec by lia.
  destruct (k <? 8), (Z.testbit a k); reflexivity.
Qed.

Lemma lxor_u8 (a b : Z) : Z.lxor (u8 a) (u8 b) = u8 (Z.lxor a b).
Proof.
  apply Z.bits_inj'. intros k Hk.
  rewrite Z.lxor_spec, !testbit_u8_full, Z.lxor_spec by lia.
  destruct (k <? 8); reflexivity.
Qed.

Lemma land_byte (a b : Z) : 0 <= b < 256 -> 0 <= Z.land a b < 256.
Proof. intros Hb. rewrite <- (u8_small b) by lia. rewrite land_u8. apply u8_range. Qed.

Lemma lxor_byte (a b : Z) : 0 <= a < 256 -> 0 <= b < 256 -> 0 <= Z.lxor a b < 256.
Proof.
  intros Ha Hb. rewrite <- (u8_small a), <- (u8_small b) by lia.
  rewrite lxor_u8. apply u8_range.
Qed.

Ltac byte_goal :=
  solve [ apply u8_range | apply u16_range | lia
        | unfold SR_FLAG_NEGATIVE, SR_FLAG_OVERFLOW, SR_FLAG_UNUSED, SR_FLAG_BREAK,
            SR_FLAG_DECIMAL, SR_FLAG_INTERRUPT, SR_FLAG_ZERO, SR_FLAG_CARRY; lia
        | apply lor_byte; byte_goal | apply land_byte; byte_goal
        | apply lxor_byte; byte_goal ].

Ltac wf_cpu :=
  let c := fresh "c" in let Hc := fresh "Hc" in
  intros c Hc; destruct c as [pc ac x y sr sp];
  unfold regs_wf in *; cbn [my_pc my_ac my_x my_y my_sr my_sp] in Hc;
  destruct Hc as (Hpc & Hac & Hx & Hy & Hsr & Hsp);
  unfold my_ora, my_and, my_eor, my_adc, my_sbc, my_lda, my_ldx, my_ldy,
    my_cmp, my_cpx, my_cpy, my_bit, my_bcc, my_bcs, my_beq, my_bne, my_bmi,
    my_bpl, my_bvc, my_bvs, my_jmp, my_clc, my_cld, my_cli, my_clv, my_sec,
    my_sed, my_sei, my_tax, my_tay, my_tsx, my_txa, my_txs, my_tya, my_inx,
    my_iny, my_dex, my_dey, my_nop, my_update_sr_with_carry, my_update_sr,
    SR_SET, SR_CLR, SR_IS_SET;
  cbv zeta;
  repeat match goal with |- context [if ?b then _ else _] => destruct b end;
  cbv beta iota delta [set_pc set_ac set_x set_y set_sr set_sp
    my_pc my_ac my_x my_y my_sr my_sp];
  repeat split; byte_goal.

(** Each register primitive of the dispatch keeps the registers well typed. *)
Lemma wf_ora (v : Z) (c : cpu) : regs_wf c -> regs_wf (my_ora v c).
Proof. revert c. wf_cpu. Qed.

Lemma wf_and (v : Z) (c : cpu) : regs_wf c -> regs_wf (my_and v c).
Proof. revert c. wf_cpu. Qed.

Lemma wf_eor (v : Z) (c : cpu) : regs_wf c -> regs_wf (my_eor v c).
Proof. revert c. wf_cpu. Qed.

Lemma wf_adc (v : Z) (c : cpu) : regs_wf c -> regs_wf (my_adc v c).
Proof. revert c. wf_cpu. Qed.

Lemma wf_sbc (v : Z) (c : cpu) : regs_wf c -> regs_wf (my_sbc v c).
Proof. unfold my_sbc. apply wf_adc. Qed.

Lemma wf_lda (v : Z) (c : cpu) : regs_wf c -> regs_wf (my_lda v c).
Proof. revert c. wf_cpu. Qed.

Lemma wf_ldx (v : Z) (c : cpu) : regs_wf c -> regs_wf (my_ldx v c).
Proof. revert c. wf_cpu. Qed.

Lemma wf_ldy (v : Z) (c : cpu) : regs_wf c -> regs_wf (my_ldy v c).
Proof. revert c. wf_cpu. Qed.

Lemma wf_cmp (v : Z) (c : cpu) : regs_wf c -> regs_wf (my_cmp v c).
Proof. revert c. wf_cpu. Qed.

Lemma wf_cpx (v : Z) (c : cpu) : regs_wf c -> regs_wf (my_cpx v c).
Proof. revert c. wf_cpu. Qed.

Lemma wf_cpy (v : Z) (c : cpu) : regs_wf c -> regs_wf (my_cpy v c).
Proof. revert c. wf_cpu. Qed.

Lemma wf_bit (v : Z) (c : cpu) : regs_wf c -> regs_wf (my_bit v c).
Proof. revert c. wf_cpu. Qed.

Lemma wf_bcc (a : Z) (c : cpu) :
  0 <= a < 65536 -> regs_wf c -> regs_wf (my_bcc a c).
Proof. intros Ha. revert c. wf_cpu. Qed.

Lemma wf_bcs (a : Z) (c : cpu) :
  0 <= a < 65536 -> regs_wf c -> regs_wf (my_bcs a c).
Proof. intros Ha. revert c. wf_cpu. Qed.

Lemma wf_beq (a : Z) (c : cpu) :
  0 <= a < 65536 -> regs_wf c -> regs_wf (my_beq a c).
Proof. intros Ha. revert c. wf_cpu. Qed.

Lemma wf_bne (a : Z) (c : cpu) :
  0 <= a < 65536 -> regs_wf c -> regs_wf (my_bne a c).
Proof. intros Ha. revert c. wf_cpu. Qed.

Lemma wf_bmi (a : Z) (c : cpu) :
  0 <= a < 65536 -> regs_wf c -> regs_wf (my_bmi a c).
Proof. intros Ha. revert c. wf_cpu. Qed.

Lemma wf_bpl (a : Z) (c : cpu) :
  0 <= a < 65536 -> regs_wf c -> regs_wf (my_bpl a c).
Proof. intros Ha. revert c. wf_cpu. Qed.

Lemma wf_bvc (a : Z) (c : cpu) :
  0 <= a < 65536 -> regs_wf c -> regs_wf (my_bvc a c).
Proof. intros Ha. revert c. wf_cpu. Qed.

Lemma wf_bvs (a : Z) (c : cpu) :
  0 <= a < 65536 -> regs_wf c -> regs_wf (my_bvs a c).
Proof. intros Ha. revert c. wf_cpu. Qed.

Lemma wf_jmp (a : Z) (c : cpu) :
  0 <= a < 65536 -> regs_wf c -> regs_wf (my_jmp a c).
Proof. intros Ha. revert c. wf_cpu. Qed.

Lemma wf_clc (c : cpu) : regs_wf c -> regs_wf (my_clc c).
Proof. revert c. wf_cpu. Qed.

Lemma wf_cld (c : cpu) : regs_wf c -> regs_wf (my_cld c).
Proof. revert c. wf_cpu. Qed.

Lemma wf_cli (c : cpu) : regs_wf c -> regs_wf (my_cli c).
Proof. revert c. wf_cpu. Qed.

Lemma wf_clv (c : cpu) : regs_wf c -> regs_wf (my_clv c).
Proof. revert c. wf_cpu. Qed.

Lemma wf_sec (c : cpu) : regs_wf c -> regs_wf (my_sec c).
Proof. revert c. wf_cpu. Qed.

Lemma wf_sed (c : cpu) : regs_wf c -> regs_wf (my_sed c).
Proof. revert c. wf_cpu. Qed.

Lemma wf_sei (c : cpu) : regs_wf c -> regs_wf (my_sei c).
Proof. revert c. wf_cpu. Qed.

Lemma wf_tax (c : cpu) : regs_wf c -> regs_wf (my_tax c).
Proof. revert c. wf_cpu. Qed.

Lemma wf_tay (c : cpu) : regs_wf c -> regs_wf (my_tay c).
Proof. revert c. wf_cpu. Qed.

Lemma wf_tsx (c : cpu) : regs_wf c -> regs_wf (my_tsx c).
Proof. revert c. wf_cpu. Qed.

Lemma wf_txa (c : cpu) : regs_wf c -> regs_wf (my_txa c).
Proof. revert c. wf_cpu. Qed.

Lemma wf_txs (c : cpu) : regs_wf c -> regs_wf (my_txs c).
Proof. revert c. wf_cpu. Qed.

Lemma wf_tya (c : cpu) : regs_wf c -> regs_wf (my_tya c).
Proof. revert c. wf_cpu. Qed.

Lemma wf_inx (c : cpu) : regs_wf c -> regs_wf (my_inx c).
Proof. revert c. wf_cpu. Qed.

Lemma wf_iny (c : cpu) : regs_wf c -> regs_wf (my_iny c).
Proof. revert c. wf_cpu. Qed.

Lemma wf_dex (c : cpu) : regs_wf c -> regs_wf (my_dex c).
Proof. revert c. wf_cpu. Qed.

Lemma wf_dey (c : cpu) : regs_wf c -> regs_wf (my_dey c).
Proof. revert c. wf_cpu. Qed.

Lemma wf_nop (c : cpu) : regs_wf c -> regs_wf (my_nop c).
Proof. revert c. wf_cpu. Qed.



Create HintDb wf_db.
#[local] Hint Resolve wf_ora wf_and wf_eor wf_adc wf_sbc wf_lda : wf_db.
#[local] Hint Resolve wf_ldx wf_ldy wf_cmp wf_cpx wf_cpy wf_bit : wf_db.
#[local] Hint Resolve wf_bcc wf_bcs wf_beq wf_bne wf_bmi wf_bpl : wf_db.
#[local] Hint Resolve wf_bvc wf_bvs wf_jmp wf_clc wf_cld wf_cli : wf_db.
#[local] Hint Resolve wf_clv wf_sec wf_sed wf_sei wf_tax wf_tay : wf_db.
#[local] Hint Resolve wf_tsx wf_txa wf_txs wf_tya wf_inx wf_iny : wf_db.
#[local] Hint Resolve wf_dex wf_dey wf_nop : wf_db.

Lemma kw_ret {A} (a : A) (P : A -> Prop) : P a -> keeps_wf (ret a) P.
Proof. intros Ha m a' m' Hw E. injection E as <- <-. auto. Qed.

Lemma kw_bind {A B} (c : M A) (k : A -> M B) (P : A -> Prop) (Q : B -> Prop) :
  keeps_wf c P -> (forall a, P a -> keeps_wf (k a) Q) -> keeps_wf (bind c k) Q.
Proof.
  intros Hc Hk m b m'' Hw. unfold bind.
  destruct (c m) as [a m' | f m'] eqn:E; [| discriminate].
  destruct (Hc m a m' Hw E) as [Hw' Ha]. apply (Hk a Ha m' b m'' Hw').
Qed.

Lemma kw_get_cpu : keeps_wf get_cpu regs_wf.
Proof. intros m a m' Hw E. injection E as <- <-. auto. Qed.

Lemma kw_modify (f : cpu -> cpu) :
  (forall c, regs_wf c -> regs_wf (f c)) -> keeps_wf (modify f) (fun _ => True).
Proof. intros Hf m a m' Hw E. injection E as <- <-. cbn. auto. Qed.

Lemma kw_read (addr : Z) : keeps_wf (my6502_read addr) (fun v => 0 <= v < 256).
Proof. intros m a m' Hw E. injection E as <- <-. split; [exact Hw | apply u8_range]. Qed.

Lemma kw_write (addr v : Z) : keeps_wf (my6502_write addr v) (fun _ => True).
Proof. intros m a m' Hw E. injection E as <- <-. auto. Qed.

Lemma kw_weaken {A} (c : M A) (P Q : A -> Prop) :
  keeps_wf c P -> (forall a, P a -> Q a) -> keeps_wf c Q.
Proof. intros Hc HPQ m a m' Hw E. destruct (Hc m a m' Hw E). auto. Qed.

Ltac kw_atom :=
  first [ apply kw_get_cpu | apply kw_read | apply kw_write
        | apply kw_modify; wf_cpu ].

Lemma kw_fetch_pc : keeps_wf fetch_pc (fun v => 0 <= v < 256).
Proof.
  unfold fetch_pc. eapply kw_bind; [kw_atom | intros c Hc].
  eapply kw_bind; [apply kw_modify | intros _ _; apply kw_read].
  intros c' Hc'. destruct Hc' as (? & ? & ? & ? & ? & ?).
  repeat split; cbn; try byte_goal.
Qed.

Lemma kw_push (v : Z) : keeps_wf (my_push v) (fun _ => True).
Proof.
  unfold my_push. eapply kw_bind; [kw_atom | intros c Hc].
  eapply kw_bind; [apply kw_modify | intros _ _; apply kw_write].
  intros c' Hc'. destruct Hc' as (? & ? & ? & ? & ? & ?).
  repeat split; cbn; try byte_goal.
Qed.

Lemma kw_pop : keeps_wf my_pop (fun v => 0 <= v < 256).
Proof.
  unfold my_pop. eapply kw_bind; [kw_atom | intros c Hc]. cbv zeta.
  eapply kw_bind; [apply kw_modify | intros _ _; apply kw_read].
  intros c' Hc'. destruct Hc' as (? & ? & ? & ? & ? & ?).
  repeat split; cbn; try byte_goal.
Qed.

Ltac kw_solve_with tac :=
  repeat lazymatch goal with
  | |- keeps_wf (bind _ _) _ =>
      eapply kw_bind;
        [ first [ kw_atom | apply kw_fetch_pc | apply kw_push | apply kw_pop | tac ]
        | let a := fresh "a" in let Ha := fresh "Ha" in intros a Ha; cbv beta in Ha ]
  | |- keeps_wf (ret _) _ => apply kw_ret; try byte_goal
  | |- keeps_wf (if ?b then _ else _) _ => destruct b
  | |- keeps_wf (let _ := _ in _) _ => cbv zeta
  | |- keeps_wf (modify _) _ =>
      apply kw_modify;
      first [ let c := fresh "c" in let Hc := fresh "Hc" in
              intros c Hc; solve [eauto with wf_db] | wf_cpu ]
  | |- keeps_wf (my6502_read _) _ => apply kw_read
  | |- keeps_wf (my6502_write _ _) _ => apply kw_write
  | |- keeps_wf (my_push _) _ => apply kw_push
  | |- keeps_wf fetch_pc _ => apply kw_fetch_pc
  | |- keeps_wf _ _ =>
      progress unfold my_read_addr_from_mem_pc, my_read_addr_from_mem, OP_value,
        OP_rmw, OP_addr, OP_jump, my_brk, my_jsr, my_rti, my_rts, my_pha, my_php,
        my_pla, my_plp, my_asl, my_lsr, my_rol, my_ror, my_inc, my_dec, my_sta,
        my_stx, my_sty, my_write_op
  end.

Lemma kw_read_addr_from_mem_pc :
  keeps_wf my_read_addr_from_mem_pc (fun a => 0 <= a < 65536).
Proof. kw_solve_with fail. Qed.

Lemma kw_read_addr_from_mem (r : Z) :
  keeps_wf (my_read_addr_from_mem r) (fun a => 0 <= a < 65536).
Proof. kw_solve_with fail. Qed.

Lemma kw_read_addr (mode : my_addr) :
  mode <> IMMEDIATE -> mode <> ACCUMULATOR ->
  keeps_wf (my_read_addr mode) (fun a => 0 <= a < 65536).
Proof.
  intros H1 H2. destruct mode; try congruence; unfold my_read_addr;
    kw_solve_with ltac:(first [ apply kw_read_addr_from_mem_pc
                              | apply kw_read_addr_from_mem ]).
  - eapply kw_weaken; [apply kw_fetch_pc | intros v Hv; cbv beta in *; lia].
  - change 255 with (Z.ones 8). rewrite Z.land_ones by lia.
    pose proof (Z.mod_pos_bound (a + my_x a0) (2 ^ 8)). lia.
  - change 255 with (Z.ones 8). rewrite Z.land_ones by lia.
    pose proof (Z.mod_pos_bound (a + my_y a0) (2 ^ 8)). lia.
Qed.

Lemma kw_read_op (mode : my_addr) :
  mode <> RELATIVE -> mode <> INDIRECT ->
  keeps_wf (my_read_op mode) (fun _ => True).
Proof.
  intros H1 H2. destruct mode; try congruence; unfold my_read_op;
    kw_solve_with ltac:(apply kw_read_addr; discriminate).
Qed.

Ltac kw_solve :=
  kw_solve_with ltac:(first [ apply kw_read_addr; discriminate
                            | apply kw_read_op; discriminate ]).

Lemma my6502_ops_keep_wf :
  Forall (fun p => keeps_wf (snd p) (fun _ => True)) my6502_ops.
Proof.
  unfold my6502_ops.
  repeat (apply Forall_cons; [cbn [snd]; kw_solve |]).
  apply Forall_nil.
Qed.

Lemma step_keeps_wf : keeps_wf my6502_step (fun _ => True).
Proof.
  unfold my6502_step. eapply kw_bind; [apply kw_fetch_pc | intros op _].
  destruct (lookup_op op my6502_ops) as [act |] eqn:E.
  - apply lookup_op_in in E.
    pose proof (proj1 (Forall_forall _ _) my6502_ops_keep_wf _ E) as K.
    exact K.
  - intros m a m' _ F. discriminate F.
Qed.

(** Register widths: in every state reachable from a reset, the program
    counter holds a 16-bit value and A, X, Y, SR and SP hold 8-bit values. *)
Theorem reachable_regs_wf (entry : Z) (m : machine) :
  reachable entry m -> regs_wf (regs m).
Proof.
  induction 1 as [m0 m E | m m' _ IH E].
  - injection E as <-. cbn. unfold SR_FLAG_UNUSED.
    pose proof (u16_range entry). unfold regs_wf; cbn; lia.
  - exact (proj1 (step_keeps_wf m tt m' IH E)).
Qed.

Lemma reachable_regs_wf_witness :
  exists m, reachable 0x400 m /\ regs_wf (regs m).
Proof.
  eexists. split.
  - eapply reach_step; [apply (reach_reset 0x400 m_beq); reflexivity |].
    vm_compute. reflexivity.
  - eapply (reachable_regs_wf 0x400).
    eapply reach_step; [apply (reach_reset 0x400 m_beq); reflexivity |].
    vm_compute. reflexivity.
Defined.

Lemma compare_flags_witness :
  (In (my_cpx, my_x) [(my_cmp, my_ac); (my_cpx, my_x); (my_cpy, my_y)] /\
   0 <= my_x cpu_ac50_c < 256 /\ 0 <= 0x10 < 256) /\
  (my_cpx 0x10 cpu_ac50_c = set_sr (my_sr (my_cpx 0x10 cpu_ac50_c)) cpu_ac50_c /\
   Z.testbit (my_sr (my_cpx 0x10 cpu_ac50_c)) 0 = (0x10 <=? my_x cpu_ac50_c) /\
   Z.testbit (my_sr (my_cpx 0x10 cpu_ac50_c)) 1 = (my_x cpu_ac50_c =? 0x10) /\
   Z.testbit (my_sr (my_cpx 0x10 cpu_ac50_c)) 7 =
     Z.testbit (u8 (my_x cpu_ac50_c - 0x10)) 7 /\
   (forall k, 2 <= k < 7 ->
      Z.testbit (my_sr (my_cpx 0x10 cpu_ac50_c)) k = Z.testbit (my_sr cpu_ac50_c) k)).
Proof.
  split; [split; [cbn; tauto | cbn; lia] |].
  apply (compare_flags my_cpx my_x); [cbn; tauto | cbn; lia | lia].
Defined.

Lemma bit_flags_witness :
  0 <= 0xC0 < 256 /\
  (let c' := my_bit 0xC0 cpu_ac50_c in
   c' = set_sr (my_sr c') cpu_ac50_c /\
   Z.testbit (my_sr c') 7 = Z.testbit 0xC0 7 /\
   Z.testbit (my_sr c') 6 = Z.testbit 0xC0 6 /\
   Z.testbit (my_sr c') 1 = (Z.land (my_ac cpu_ac50_c) 0xC0 =? 0) /\
   (forall k, 0 <= k < 8 -> k <> 1 -> k <> 6 -> k <> 7 ->
      Z.testbit (my_sr c') k = Z.testbit (my_sr cpu_ac50_c) k)).
Proof.
  split; [lia |].
  apply bit_flags; lia.
Defined.

Lemma sbc_result_and_flags_witness :
  (0 <= my_ac cpu_ac50_c < 256 /\ 0 <= 0x30 < 256) /\
  (let a := my_ac cpu_ac50_c in
   let borrow := if Z.testbit (my_sr cpu_ac50_c) 0 then 0 else 1 in
   let c' := my_sbc 0x30 cpu_ac50_c in
   let ac := my_ac c' in
   ac = (a - 0x30 - borrow) mod 256 /\
   Z.testbit (my_sr c') 0 = (0 <=? a - 0x30 - borrow) /\
   Z.testbit (my_sr c') 1 = (ac =? 0) /\
   Z.testbit (my_sr c') 7 = Z.testbit ac 7 /\
   Z.testbit (my_sr c') 6 =
     negb (Z.land (Z.land (Z.lxor a 0x30) (Z.lxor a ac)) 0x80 =? 0)).
Proof.
  split; [cbn; lia |].
  apply sbc_result_and_flags; cbn; lia.
Defined.

Lemma inx_dex_iny_dey_roundtrip_witness :
  (0 <= my_x (regs m_beq) < 256 /\ 0 <= my_y (regs m_beq) < 256) /\
  my_dex (my_inx (regs m_beq)) = my_update_sr (my_x (regs m_beq)) NZ (regs m_beq) /\
  my_dey (my_iny (regs m_beq)) = my_update_sr (my_y (regs m_beq)) NZ (regs m_beq).
Proof.
  split; [cbn; lia |].
  apply inx_dex_iny_dey_roundtrip; cbn; lia.
Defined.

Lemma push_pop_roundtrip_witness :
  0 <= my_sp (regs m_beq) < 256 /\
  (let sp := my_sp (regs m_beq) in
   let a := STACK_OFFSET + sp in
   0x100 <= a <= 0x1FF /\
   my_push 0x1AB m_beq =
     Ok tt (mk_machine (set_sp (u8 (sp - 1)) (regs m_beq))
              (fun x => if x =? a then u8 0x1AB else mem m_beq x)
              (bus_log m_beq ++ [BusWrite a (u8 0x1AB)])) /\
   (my_push 0x1AB ;; my_pop) m_beq =
     Ok (u8 0x1AB) (mk_machine (regs m_beq)
                  (fun x => if x =? a then u8 0x1AB else mem m_beq x)
                  (bus_log m_beq ++ [BusWrite a (u8 0x1AB); BusRead a (u8 0x1AB)]))).
Proof.
  split; [cbn; lia |].
  apply push_pop_roundtrip; cbn; lia.
Defined.

Lemma pha_pla_roundtrip_witness :
  (0 <= my_ac (regs m_pha_pla) < 256 /\ 0 <= my_sp (regs m_pha_pla) < 256 /\
   peek m_pha_pla (my_pc (regs m_pha_pla)) = 0x48) /\
  exists m1, my6502_step m_pha_pla = Ok tt m1 /\
    (peek m1 (my_pc (regs m1)) = 0x68 ->
     exists m2, my6502_step m1 = Ok tt m2 /\
       regs m2 = my_update_sr (my_ac (regs m_pha_pla)) NZ
                   (set_pc (u16 (u16 (my_pc (regs m_pha_pla) + 1) + 1)) (regs m_pha_pla)) /\
       mem m2 = mem m1).
Proof.
  split; [split; [cbn; lia | split; [cbn; lia | vm_compute; reflexivity]] |].
  apply pha_pla_roundtrip; [cbn; lia | cbn; lia | vm_compute; reflexivity].
Defined.

Lemma php_plp_roundtrip_witness :
  (0 <= my_sp (regs m_php_plp) < 256 /\
   peek m_php_plp (my_pc (regs m_php_plp)) = 0x08) /\
  exists m1, my6502_step m_php_plp = Ok tt m1 /\
    (peek m1 (my_pc (regs m1)) = 0x28 ->
     exists m2, my6502_step m1 = Ok tt m2 /\
       regs m2 = set_sr (u8 (Z.lor (my_sr (regs m_php_plp))
                                   (Z.lor SR_FLAG_BREAK SR_FLAG_UNUSED)))
                   (set_pc (u16 (u16 (my_pc (regs m_php_plp) + 1) + 1)) (regs m_php_plp)) /\
       mem m2 = mem m1).
Proof.
  split; [split; [cbn; lia | vm_compute; reflexivity] |].
  apply php_plp_roundtrip; [cbn; lia | vm_compute; reflexivity].
Defined.

Lemma brk_rti_roundtrip_witness :
  (0 <= my_sp (regs m_brk_rti) < 256 /\
   peek m_brk_rti (my_pc (regs m_brk_rti)) = 0x00) /\
  exists m1, my6502_step m_brk_rti = Ok tt m1 /\
    my_pc (regs m1) =
      u16 (Z.lor (peek m_brk_rti 0xFFFE) (Z.shiftl (peek m_brk_rti 0xFFFF) 8)) /\
    my_sr (regs m1) = Z.lor (my_sr (regs m_brk_rti)) SR_FLAG_INTERRUPT /\
    (peek m1 (my_pc (regs m1)) = 0x40 ->
     exists m2, my6502_step m1 = Ok tt m2 /\
       regs m2 = set_sr (u8 (Z.lor (my_sr (regs m_brk_rti)) SR_FLAG_BREAK))
                   (set_pc (u16 (my_pc (regs m_brk_rti) + 2)) (regs m_brk_rti)) /\
       mem m2 = mem m1).
Proof.
  split; [split; [cbn; lia | vm_compute; reflexivity] |].
  apply brk_rti_roundtrip; [cbn; lia | vm_compute; reflexivity].
Defined.

Lemma rol_ror_acc_roundtrip_witness :
  (0 <= my_ac (regs m_rol_ror) < 256 /\
   peek m_rol_ror (my_pc (regs m_rol_ror)) = 0x2A) /\
  exists m1, my6502_step m_rol_ror = Ok tt m1 /\
    (peek m1 (my_pc (regs m1)) = 0x6A ->
     exists m2, my6502_step m1 = Ok tt m2 /\
       regs m2 = my_update_sr (my_ac (regs m_rol_ror)) NZ
                   (set_pc (u16 (u16 (my_pc (regs m_rol_ror) + 1) + 1)) (regs m_rol_ror)) /\
       mem m2 = mem m_rol_ror /\
       bus_log m2 = bus_log m_rol_ror ++
                      [BusRead (u16 (my_pc (regs m_rol_ror))) 0x2A;
                       BusRead (u16 (u16 (my_pc (regs m_rol_ror) + 1))) 0x6A]).
Proof.
  split; [split; [cbn; lia | vm_compute; reflexivity] |].
  apply rol_ror_acc_roundtrip; [cbn; lia | vm_compute; reflexivity].
Defined.

Lemma flag_instructions_witness :
  In (my_sei, 2, true)
    [(my_clc, 0, false); (my_sec, 0, true); (my_cli, 2, false);
     (my_sei, 2, true); (my_clv, 6, false); (my_cld, 3, false);
     (my_sed, 3, true)] /\
  (my_sei cpu_ac50_c = set_sr (my_sr (my_sei cpu_ac50_c)) cpu_ac50_c /\
   (forall k, 0 <= k < 8 ->
      Z.testbit (my_sr (my_sei cpu_ac50_c)) k =
        if k =? 2 then true else Z.testbit (my_sr cpu_ac50_c) k) /\
   (0 <= my_sr cpu_ac50_c < 256 -> 0 <= my_sr (my_sei cpu_ac50_c) < 256)).
Proof.
  split; [cbn; tauto |].
  apply flag_instructions; cbn; tauto.
Defined.

Lemma read_addr_indirect_x_witness :
  0 <= my_x (regs m_beq) /\
  (let c := regs m_beq in
   let pc := my_pc c in
   let b := peek m_beq pc in
   let p := Z.land (b + my_x c) 0xFF in
   let tlo := peek m_beq p in
   let thi := peek m_beq (p + 1) in
   0 <= p < 256 /\
   my_read_addr INDIRECT_X m_beq =
     Ok (u16 (Z.lor tlo (Z.shiftl thi 8)))
        (mk_machine (set_pc (u16 (pc + 1)) c) (mem m_beq)
           (bus_log m_beq ++ [BusRead (u16 pc) b; BusRead p tlo;
                              BusRead (p + 1) thi]))).
Proof.
  split; [cbn; lia |].
  apply read_addr_indirect_x; cbn; lia.
Defined.

Lemma pack_op_roundtrip_witness :
  (0 <= 0x1234 < 65536 /\ 0 <= 0xAB < 256) /\
  (u8 (pack_op 0x1234 ABSOLUTE 0xAB) = 0xAB /\
   Z.land (Z.shiftr (pack_op 0x1234 ABSOLUTE 0xAB) 8) 0xFF = my_addr_code ABSOLUTE /\
   u16 (Z.shiftr (pack_op 0x1234 ABSOLUTE 0xAB) 16) = 0x1234 /\
   (ABSOLUTE <> ACCUMULATOR ->
    my_write_op (pack_op 0x1234 ABSOLUTE 0xAB) 7 = my6502_write 0x1234 7)).
Proof.
  split; [lia |].
  apply pack_op_roundtrip; lia.
Defined.

Lemma documented_opcode_never_aborts_witness :
  In (peek m_beq (my_pc (regs m_beq))) nmos6502_opcodes /\
  exists m', my6502_step m_beq = Ok tt m'.
Proof.
  assert (H : In (peek m_beq (my_pc (regs m_beq))) nmos6502_opcodes)
    by (vm_compute; repeat (first [left; reflexivity | right])).
  split; [exact H |].
  apply documented_opcode_never_aborts; exact H.
Defined.

Lemma store_writes_one_byte_witness :
  (In (0x85, ZEROPAGE, my_sta, my_ac)
     [(0x81, INDIRECT_X, my_sta, my_ac); (0x84, ZEROPAGE, my_sty, my_y);
      (0x85, ZEROPAGE, my_sta, my_ac); (0x86, ZEROPAGE, my_stx, my_x);
      (0x8C, ABSOLUTE, my_sty, my_y); (0x8D, ABSOLUTE, my_sta, my_ac);
      (0x8E, ABSOLUTE, my_stx, my_x); (0x91, INDIRECT_Y, my_sta, my_ac);
      (0x94, ZEROPAGE_X, my_sty, my_y); (0x95, ZEROPAGE_X, my_sta, my_ac);
      (0x96, ZEROPAGE_Y, my_stx, my_x); (0x99, ABSOLUTE_Y, my_sta, my_ac);
      (0x9D, ABSOLUTE_X, my_sta, my_ac)] /\
   peek m_sta_zp (my_pc (regs m_sta_zp)) = 0x85) /\
  exists a m', my6502_step m_sta_zp = Ok tt m' /\
    0 <= a < 65536 /\
    regs m' = set_pc (my_pc (regs m')) (regs m_sta_zp) /\
    (forall x, mem m' x = if x =? a then u8 (my_ac (regs m_sta_zp)) else mem m_sta_zp x).
Proof.
  split; [split; [cbn; tauto | vm_compute; reflexivity] |].
  apply (store_writes_one_byte m_sta_zp 0x85 ZEROPAGE my_sta my_ac);
    [cbn; tauto | vm_compute; reflexivity].
Defined.

(** ** Shifts on memory operands *)

Lemma write_op_pack (addr : Z) (mode : my_addr) (v w : Z) :
  0 <= addr < 65536 -> 0 <= v < 256 -> mode <> ACCUMULATOR ->
  my_write_op (pack_op addr mode v) w = my6502_write addr w.
Proof.
  intros Ha Hv Hm. pose proof (my_addr_code_range mode).
  assert (E8 : Z.land (Z.shiftr (pack_op addr mode v) 8) 0xFF = my_addr_code mode).
  { rewrite pack_op_arith, Z.shiftr_div_pow2 by lia. change (2 ^ 8) with 256.
    rewrite Z.div_add, Z.div_small, Z.add_0_l by lia.
    change 0xFF with (Z.ones 8). rewrite Z.land_ones by lia. change (2 ^ 8) with 256.
    rewrite Z.mod_add, Z.mod_small by lia. reflexivity. }
  assert (E16 : u16 (Z.shiftr (pack_op addr mode v) 16) = addr).
  { rewrite pack_op_arith, Z.shiftr_div_pow2 by lia. change (2 ^ 16) with 65536.
    replace (v + (my_addr_code mode + addr * 256) * 256)
      with ((v + my_addr_code mode * 256) + addr * 65536) by ring.
    rewrite Z.div_add, Z.div_small, Z.add_0_l by lia. apply u16_small. lia. }
  unfold my_write_op. rewrite E8, E16.
  destruct mode; try (exfalso; apply Hm; reflexivity); reflexivity.
Qed.

(** ASL and LSR on a memory operand (any mode but ACCUMULATOR) write the
    shifted byte back to the operand's address and touch no register but
    SR: C takes the bit shifted out (bit 7 for ASL, bit 0 for LSR), N and Z
    describe the new byte, and after LSR N is always clear. *)
Theorem asl_lsr_memory (addr : Z) (mode : my_addr) (v : Z) (m : machine) :
  0 <= addr < 65536 -> 0 <= v < 256 -> mode <> ACCUMULATOR ->
  let upd w := fun x => if x =? addr then w else mem m x in
  let ca := my_update_sr_with_carry (u8 (2 * v)) NZ (Z.land v 0x80) (regs m) in
  let cl := my_update_sr_with_carry (v / 2) NZ (Z.land v 1) (regs m) in
  my_asl (pack_op addr mode v) m =
    Ok tt (mk_machine ca (upd (u8 (2 * v))) (bus_log m ++ [BusWrite addr (u8 (2 * v))])) /\
  my_lsr (pack_op addr mode v) m =
    Ok tt (mk_machine cl (upd (v / 2)) (bus_log m ++ [BusWrite addr (v / 2)])) /\
  ca = set_sr (my_sr ca) (regs m) /\ cl = set_sr (my_sr cl) (regs m) /\
  Z.testbit (my_sr ca) 0 = Z.testbit v 7 /\
  Z.testbit (my_sr cl) 0 = Z.testbit v 0 /\
  Z.testbit (my_sr cl) 7 = false.
Proof.
  intros Ha Hv Hm. cbv zeta.
  assert (Hu : u8 (pack_op addr mode v) = v) by (rewrite u8_pack_op; apply u8_small; lia).
  unfold my_asl, my_lsr. rewrite Hu, !(write_op_pack addr mode v) by assumption.
  destruct m as [c mm log].
  unfold bind, modify, my6502_write. cbn [regs mem bus_log].
  rewrite (u16_small addr) by lia.
  rewrite Z.shiftl_mul_pow2, Z.shiftr_div_pow2 by lia. change (2 ^ 1) with 2.
  rewrite (u8_small (v / 2)) by (Z.div_mod_to_equations; lia).
  rewrite (u8_small (u8 (v * 2))) by apply u8_range.
  rewrite (Z.mul_comm v 2).
  split; [reflexivity |]. split; [reflexivity |].
  split; [unfold my_update_sr_with_carry, my_update_sr, SR_SET, SR_CLR; cbv zeta;
          repeat match goal with |- context [if ?b then _ else _] => destruct b end;
          reflexivity |].
  split; [unfold my_update_sr_with_carry, my_update_sr, SR_SET, SR_CLR; cbv zeta;
          repeat match goal with |- context [if ?b then _ else _] => destruct b end;
          reflexivity |].
  rewrite !update_sr_with_carry_NZ by lia. cbn [Z.eqb Pos.eqb].
  split; [| split].
  - change 0x80 with (2 ^ 7). rewrite land_pow2 by lia.
    destruct (Z.testbit v 7); reflexivity.
  - change 1 with (2 ^ 0) at 1. rewrite land_pow2 by lia.
    destruct (Z.testbit v 0); reflexivity.
  - rewrite bit7_byte by (Z.div_mod_to_equations; lia).
    apply Z.leb_gt. Z.div_mod_to_equations; lia.
Qed.

Lemma asl_lsr_memory_witness :
  (0 <= 0x10 < 65536 /\ 0 <= 0x81 < 256 /\ ZEROPAGE <> ACCUMULATOR) /\
  (let upd w := fun x => if x =? 0x10 then w else mem m_beq x in
   let ca := my_update_sr_with_carry (u8 (2 * 0x81)) NZ (Z.land 0x81 0x80) (regs m_beq) in
   let cl := my_update_sr_with_carry (0x81 / 2) NZ (Z.land 0x81 1) (regs m_beq) in
   my_asl (pack_op 0x10 ZEROPAGE 0x81) m_beq =
     Ok tt (mk_machine ca (upd (u8 (2 * 0x81)))
              (bus_log m_beq ++ [BusWrite 0x10 (u8 (2 * 0x81))])) /\
   my_lsr (pack_op 0x10 ZEROPAGE 0x81) m_beq =
     Ok tt (mk_machine cl (upd (0x81 / 2)) (bus_log m_beq ++ [BusWrite 0x10 (0x81 / 2)])) /\
   ca = set_sr (my_sr ca) (regs m_beq) /\ cl = set_sr (my_sr cl) (regs m_beq) /\
   Z.testbit (my_sr ca) 0 = Z.testbit 0x81 7 /\
   Z.testbit (my_sr cl) 0 = Z.testbit 0x81 0 /\
   Z.testbit (my_sr cl) 7 = false).
Proof.
  split; [split; [lia | split; [lia | discriminate]] |].
  apply asl_lsr_memory; [lia | lia | discriminate].
Defined.

(** ** Addressing modes: zero page and unsupported modes *)

(** The zero-page modes read one operand byte [b] and advance PC by one;
    ZEROPAGE gives [b], and ZEROPAGE_X and ZEROPAGE_Y give [b] plus the
    index modulo 256, so the address never leaves the zero page. *)
Theorem read_addr_zeropage (m : machine) :
  let c := regs m in
  let pc := my_pc c in
  let b := peek m pc in
  let m1 := mk_machine (set_pc (u16 (pc + 1)) c) (mem m)
              (bus_log m ++ [BusRead (u16 pc) b]) in
  my_read_addr ZEROPAGE m = Ok b m1 /\
  my_read_addr ZEROPAGE_X m = Ok ((b + my_x c) mod 256) m1 /\
  my_read_addr ZEROPAGE_Y m = Ok ((b + my_y c) mod 256) m1.
Proof.
  destruct m as [[pc ac x y sr sp] mm log]. cbv zeta.
  unfold my_read_addr. run_m. unfold peek. cbn [mem].
  change 255 with (Z.ones 8). rewrite !Z.land_ones by lia.
  repeat split.
Qed.

(** The addressing helpers abort ([assert(0)]) exactly on the modes they do
    not handle, with no bus access: [my_read_addr] on IMMEDIATE and
    ACCUMULATOR, [my_read_op] on RELATIVE and INDIRECT.  On every other
    mode they complete normally, returning [Ok]. *)
Theorem addressing_mode_aborts (mode : my_addr) (m : machine) :
  (my_read_addr mode m = Abort "my_read_addr" m <->
     mode = IMMEDIATE \/ mode = ACCUMULATOR) /\
  (mode <> IMMEDIATE -> mode <> ACCUMULATOR ->
     exists a m', my_read_addr mode m = Ok a m') /\
  (my_read_op mode m = Abort "my_read_op" m <->
     mode = RELATIVE \/ mode = INDIRECT) /\
  (mode <> RELATIVE -> mode <> INDIRECT ->
     exists a m', my_read_op mode m = Ok a m').
Proof.
  split; [split | split; [| split; [split |]]].
  - intros H. destruct mode; try (now left); try (now right); exfalso;
      destruct (na_read_addr _ ltac:(discriminate) ltac:(discriminate) m)
        as (a & m' & E); congruence.
  - intros [-> | ->]; reflexivity.
  - intros H1 H2. exact (na_read_addr mode H1 H2 m).
  - intros H. destruct mode; try (now left); try (now right); exfalso;
      destruct (na_read_op _ ltac:(discriminate) ltac:(discriminate) m)
        as (a & m' & E); congruence.
  - intros [-> | ->]; reflexivity.
  - intros H1 H2. exact (na_read_op mode H1 H2 m).
Qed.

(** ** The early eleven-opcode core *)

(** The early core ignores every opcode outside its eleven: the step
    fetches the opcode, advances PC by one and does nothing else (no
    [default] case, so no abort). *)
Theorem mini_undefined_opcode_ignored (m : machine) :
  ~ In (peek m (my_pc (regs m))) (map fst Mini6502.my6502_ops) ->
  Mini6502.my6502_step m =
    Ok tt (mk_machine (set_pc (u16 (my_pc (regs m) + 1)) (regs m)) (mem m)
             (bus_log m ++ [BusRead (u16 (my_pc (regs m))) (peek m (my_pc (regs m)))])).
Proof.
  intros Hn.
  destruct m as [[pc ac x y sr sp] mm log].
  unfold Mini6502.my6502_step. run_m. unfold peek in Hn |- *. cbn [mem regs my_pc] in Hn |- *.
  rewrite (lookup_op_none _ _ Hn). reflexivity.
Qed.

(** The early core's step never aborts: every dispatched action is called
    with an addressing mode it handles. *)
Theorem mini_step_never_aborts (m : machine) :
  exists m', Mini6502.my6502_step m = Ok tt m'.
Proof.
  destruct m as [[pc ac x y sr sp] mm log].
  unfold Mini6502.my6502_step. run_m.
  destruct (lookup_op (u8 (mm (u16 pc))) Mini6502.my6502_ops) as [act |] eqn:E;
    [| eexists; reflexivity].
  apply lookup_op_in in E.
  cbn [Mini6502.my6502_ops In] in E.
  repeat destruct E as [E | E]; try contradiction; injection E as _ <-;
  unfold Mini6502.my_jmp, Mini6502.my_sta, Mini6502.my_lda, Mini6502.my_ld_index,
    Mini6502.my_bne, Mini6502.my_beq; run_m;
  repeat match goal with |- context [if ?b then _ else _] => destruct b end;
  eexists; reflexivity.
Qed.

(** BNE and BEQ of the early core read the offset byte only when the branch
    is taken: then PC becomes the address after the offset plus the
    sign-extended offset; otherwise PC is left on the offset byte, which the
    next step fetches as an opcode. *)
Theorem mini_branch_step (m : machine) (op : Z) (taken : bool) :
  In (op, taken) [(0xD0, negb (SR_IS_SET SR_FLAG_ZERO (regs m)));
                  (0xF0, SR_IS_SET SR_FLAG_ZERO (regs m))] ->
  peek m (my_pc (regs m)) = op ->
  let pc1 := u16 (my_pc (regs m) + 1) in
  let off := peek m pc1 in
  Mini6502.my6502_step m =
    if taken then
      Ok tt (mk_machine (set_pc (u16 (u16 (pc1 + 1) + sext8 off)) (regs m)) (mem m)
               (bus_log m ++ [BusRead (u16 (my_pc (regs m))) op; BusRead pc1 off]))
    else
      Ok tt (mk_machine (set_pc pc1 (regs m)) (mem m)
               (bus_log m ++ [BusRead (u16 (my_pc (regs m))) op])).
Proof.
  intros Hin Hop. cbv zeta.
  destruct m as [[pc ac x y sr sp] mm log]. cbn [regs] in Hin.
  unfold SR_IS_SET in Hin. cbn [my_sr] in Hin.
  destruct (Z.land sr SR_FLAG_ZERO =? 0) eqn:Ez; cbn [negb] in Hin;
    destruct Hin as [E | [E | []]]; injection E as <- <-;
    unfold Mini6502.my6502_step; run_m; run_m_in Hop; rewrite Hop;
    cbn [lookup_op Mini6502.my6502_ops Z.eqb Pos.eqb];
    unfold Mini6502.my_bne, Mini6502.my_beq; run_m;
    unfold SR_IS_SET; cbn [my_sr]; rewrite Ez; cbn [negb];
    unfold peek; cbn [mem]; rewrite ?u16_u16, <- ?app_assoc; reflexivity.
Qed.

(** On the opcodes both cores implement, the early core's step has the same
    effect as the full core's (registers, memory and bus accesses), except
    for BNE and BEQ when the branch is not taken. *)
Theorem mini_agrees_with_full (m : machine) :
  let op := peek m (my_pc (regs m)) in
  In op [0x4C; 0x88; 0x8D; 0x9A; 0xA0; 0xA2; 0xA9; 0xCA; 0xD8] \/
  (op = 0xD0 /\ SR_IS_SET SR_FLAG_ZERO (regs m) = false) \/
  (op = 0xF0 /\ SR_IS_SET SR_FLAG_ZERO (regs m) = true) ->
  Mini6502.my6502_step m = my6502_step m.
Proof.
  cbv zeta. destruct m as [[pc ac x y sr sp] mm log]. cbn [regs].
  unfold SR_IS_SET. cbn [my_sr].
  intros H.
  assert (Hop : exists op, peek (mk_machine (mk_cpu pc ac x y sr sp) mm log) pc = op /\
    (In op [0x4C; 0x88; 0x8D; 0x9A; 0xA0; 0xA2; 0xA9; 0xCA; 0xD8] \/
     (op = 0xD0 /\ negb (Z.land sr SR_FLAG_ZERO =? 0) = false) \/
     (op = 0xF0 /\ negb (Z.land sr SR_FLAG_ZERO =? 0) = true)))
    by (eexists; split; [reflexivity | exact H]).
  clear H. destruct Hop as (op & Hop & H).
  unfold Mini6502.my6502_step, my6502_step. run_m. run_m_in Hop. rewrite Hop.
  destruct H as [H | [[-> Hz] | [-> Hz]]];
    [cbn [In] in H; repeat destruct H as [<- | H]; try contradiction | |];
    cbn [lookup_op Mini6502.my6502_ops my6502_ops Z.eqb Pos.eqb];
    unfold Mini6502.my_jmp, Mini6502.my_sta, Mini6502.my_lda, Mini6502.my_ld_index,
      Mini6502.my_bne, Mini6502.my_beq, Mini6502.set_index, Mini6502.get_index,
      OP_jump, OP_addr, OP_value, my_read_addr, my_read_op, my_read_addr_from_mem_pc,
      my_sta, my_jmp, my_lda, my_ldx, my_ldy, my_bne, my_beq;
    run_m; unfold SR_IS_SET; cbn [my_sr];
    rewrite ?Hz; cbn [negb];
    rewrite ?u8_pack_op, ?u8_u8; reflexivity.
Qed.

Lemma mini_ops_keep_wf :
  Forall (fun p => keeps_wf (snd p) (fun _ => True)) Mini6502.my6502_ops.
Proof.
  unfold Mini6502.my6502_ops.
  repeat (apply Forall_cons;
          [cbn [snd];
           unfold Mini6502.my_jmp, Mini6502.my_sta, Mini6502.my_lda,
             Mini6502.my_ld_index, Mini6502.my_bne, Mini6502.my_beq,
             Mini6502.set_index, Mini6502.get_index;
           kw_solve_with fail |]).
  apply Forall_nil.
Qed.

Lemma mini_step_keeps_wf : keeps_wf Mini6502.my6502_step (fun _ => True).
Proof.
  unfold Mini6502.my6502_step. eapply kw_bind; [apply kw_fetch_pc | intros op _].
  destruct (lookup_op op Mini6502.my6502_ops) as [act |] eqn:E.
  - apply lookup_op_in in E.
    exact (proj1 (Forall_forall _ _) mini_ops_keep_wf _ E).
  - apply kw_ret. exact I.
Qed.

(** Register widths in the early core: in every state reached from a reset,
    PC holds a 16-bit value and A, X, Y, SR and SP hold 8-bit values. *)
Theorem mini_reachable_regs_wf (entry : Z) (m : machine) :
  Mini6502.reachable entry m -> regs_wf (regs m).
Proof.
  induction 1 as [m0 m E | m m' _ IH E].
  - injection E as <-. cbn. unfold SR_FLAG_UNUSED.
    pose proof (u16_range entry). unfold regs_wf; cbn; lia.
  - exact (proj1 (mini_step_keeps_wf m tt m' IH E)).
Qed.

Lemma mini_undefined_opcode_ignored_witness :
  ~ In (peek m_op02 (my_pc (regs m_op02))) (map fst Mini6502.my6502_ops) /\
  Mini6502.my6502_step m_op02 =
    Ok tt (mk_machine (set_pc (u16 (my_pc (regs m_op02) + 1)) (regs m_op02)) (mem m_op02)
             (bus_log m_op02 ++ [BusRead (u16 (my_pc (regs m_op02)))
                                   (peek m_op02 (my_pc (regs m_op02)))])).
Proof.
  assert (H : ~ In (peek m_op02 (my_pc (regs m_op02))) (map fst Mini6502.my6502_ops))
    by (vm_compute; intuition discriminate).
  split; [exact H |].
  apply mini_undefined_opcode_ignored; exact H.
Defined.

Lemma mini_branch_step_witness :
  (In (0xD0, false) [(0xD0, negb (SR_IS_SET SR_FLAG_ZERO (regs m_bne_z)));
                     (0xF0, SR_IS_SET SR_FLAG_ZERO (regs m_bne_z))] /\
   peek m_bne_z (my_pc (regs m_bne_z)) = 0xD0) /\
  Mini6502.my6502_step m_bne_z =
    Ok tt (mk_machine (set_pc (u16 (my_pc (regs m_bne_z) + 1)) (regs m_bne_z))
             (mem m_bne_z)
             (bus_log m_bne_z ++ [BusRead (u16 (my_pc (regs m_bne_z))) 0xD0])).
Proof.
  split; [split; [vm_compute; left; reflexivity | vm_compute; reflexivity] |].
  apply (mini_branch_step m_bne_z 0xD0 false);
    [vm_compute; left; reflexivity | vm_compute; reflexivity].
Defined.

Lemma mini_agrees_with_full_witness :
  (let op := peek m_beq (my_pc (regs m_beq)) in
   In op [0x4C; 0x88; 0x8D; 0x9A; 0xA0; 0xA2; 0xA9; 0xCA; 0xD8] \/
   (op = 0xD0 /\ SR_IS_SET SR_FLAG_ZERO (regs m_beq) = false) \/
   (op = 0xF0 /\ SR_IS_SET SR_FLAG_ZERO (regs m_beq) = true)) /\
  Mini6502.my6502_step m_beq = my6502_step m_beq.
Proof.
  assert (H : let op := peek m_beq (my_pc (regs m_beq)) in
    In op [0x4C; 0x88; 0x8D; 0x9A; 0xA0; 0xA2; 0xA9; 0xCA; 0xD8] \/
    (op = 0xD0 /\ SR_IS_SET SR_FLAG_ZERO (regs m_beq) = false) \/
    (op = 0xF0 /\ SR_IS_SET SR_FLAG_ZERO (regs m_beq) = true))
    by (right; right; split; vm_compute; reflexivity).
  split; [exact H |].
  apply mini_agrees_with_full; exact H.
Defined.

Lemma mini_reachable_regs_wf_witness :
  exists m, Mini6502.reachable 0x400 m /\ regs_wf (regs m).
Proof.
  eexists. split.
  - eapply Mini6502.reach_step; [apply (Mini6502.reach_reset 0x400 m_beq); reflexivity |].
    vm_compute. reflexivity.
  - eapply (mini_reachable_regs_wf 0x400).
    eapply Mini6502.reach_step; [apply (Mini6502.reach_reset 0x400 m_beq); reflexivity |].
    vm_compute. reflexivity.
Defined.

Lemma addressing_mode_aborts_witness :
  (ZEROPAGE <> IMMEDIATE /\ ZEROPAGE <> ACCUMULATOR /\
   ZEROPAGE <> RELATIVE /\ ZEROPAGE <> INDIRECT) /\
  (exists a m', my_read_addr ZEROPAGE m_beq = Ok a m') /\
  (exists a m', my_read_op ZEROPAGE m_beq = Ok a m') /\
  my_read_addr IMMEDIATE m_beq = Abort "my_read_addr" m_beq.
Proof.
  destruct (addressing_mode_aborts ZEROPAGE m_beq) as (_ & Ha & _ & Ho).
  destruct (addressing_mode_aborts IMMEDIATE m_beq) as ((_ & Hi) & _).
  split; [repeat split; discriminate |].
  split; [apply Ha; discriminate |].
  split; [apply Ho; discriminate |].
  apply Hi. left. reflexivity.
Defined.
